(** * A to-do list service: the request handlers of [server.ts]

    The repository holds one Hono application in several revisions.  Each
    revision is embedded in a module of its own:

    - [Server]: [src/server.ts] as it stands (UUID ids, an in-memory list for
      local runs, a KV namespace in production, storage errors rethrown);
    - [KVOnly]: the revision that stores to KV only, takes [Date.now()] as
      id and coerces [completed] with [Boolean];
    - [FileBacked]: the revision that mirrors the in-memory list of a local
      run to [local-tasks.json];
    - [Prototype]: the first revision, a module-level array and no checks.

    JavaScript values are modelled as the handlers see them: strings are
    sequences of UTF-16 code units, a request body is a JSON value, a
    property read yields a value or [undefined], and a handler runs in a
    small monad with mutable state, early [return] and [throw]. *)

From Stdlib Require Import QArith.
From stdpp Require Import base numbers list strings gmap.

Set Default Proof Using "Type".
Set Warnings "-register-all".
Local Open Scope Z_scope.

(** ** JavaScript strings *)

(** A string is its sequence of UTF-16 code units. *)
Definition jsstring := list N.

(** An ASCII literal as a JavaScript string. *)
Definition js (s : string) : jsstring :=
  (λ a, Ascii.N_of_ascii a) <$> String.list_ascii_of_string s.

(** ECMAScript [WhiteSpace] and [LineTerminator] code points, the ones
    [String.prototype.trim] strips. *)
Definition isWhiteSpace (u : N) : bool :=
  ((9 <=? u) && (u <=? 13) || (u =? 32) || (u =? 160) || (u =? 5760)
   || (8192 <=? u) && (u <=? 8202) || (u =? 8232) || (u =? 8233)
   || (u =? 8239) || (u =? 8287) || (u =? 12288) || (u =? 65279))%N.

Fixpoint trimStart (s : jsstring) : jsstring :=
  match s with
  | [] => []
  | u :: s' => if isWhiteSpace u then trimStart s' else s
  end.

Definition trimEnd (s : jsstring) : jsstring := rev (trimStart (rev s)).

Definition trim (s : jsstring) : jsstring := trimEnd (trimStart s).

(** [s === ''] *)
Definition is_empty (s : jsstring) : bool :=
  match s with [] => true | _ => false end.

(** ** JSON values and property reads *)

(** What [c.req.json()] can produce.  A number is a finite value, held
    exactly; the handlers only look at its type and at whether it is zero. *)
Inductive JSON : Type :=
  | JNull
  | JBool (b : bool)
  | JNum (q : Q)
  | JStr (s : jsstring)
  | JArr (items : list JSON)
  | JObj (fields : list (jsstring * JSON)).

(** The result of reading a property: a JSON value, or [undefined]. *)
Definition JSValue := option JSON.
Definition undefined : JSValue := None.

(** [JSON.parse] keeps the last of several fields with one name. *)
Fixpoint own_property (k : jsstring) (fields : list (jsstring * JSON)) : JSValue :=
  match fields with
  | [] => undefined
  | (k', v) :: rest =>
      match own_property k rest with
      | Some v' => Some v'
      | None => if bool_decide (k' = k) then Some v else undefined
      end
  end.

Inductive Exception : Type :=
  | SyntaxError
  | TypeError
  | Error (message : string).

(** [body.k] for a parsed body: [null] has no properties and the read
    throws; primitives and arrays have no property named [task] or
    [completed]. *)
Definition property (body : JSON) (k : jsstring) : Exception + JSValue :=
  match body with
  | JNull => inl TypeError
  | JObj fields => inr (own_property k fields)
  | _ => inr undefined
  end.

Inductive TypeTag : Type :=
  | TUndefined | TObject | TBoolean | TNumber | TString.

Global Instance TypeTag_eq_dec : EqDecision TypeTag.
Proof. solve_decision. Defined.

Definition typeof (v : JSValue) : TypeTag :=
  match v with
  | None => TUndefined
  | Some (JBool _) => TBoolean
  | Some (JNum _) => TNumber
  | Some (JStr _) => TString
  | Some _ => TObject
  end.

(** [ToBoolean], used by [!v] and by [Boolean(v)]. *)
Definition toBoolean (v : JSValue) : bool :=
  match v with
  | None => false
  | Some JNull => false
  | Some (JBool b) => b
  | Some (JNum q) => negb (Qeq_bool q 0)
  | Some (JStr s) => negb (is_empty s)
  | Some _ => true
  end.

(** [v.trim()] where the guard before it has made sure [v] is a string; the
    other cases are never evaluated. *)
Definition trim_of (v : JSValue) : jsstring :=
  match v with
  | Some (JStr s) => trim s
  | _ => []
  end.

Definition boolean_of (v : JSValue) : bool :=
  match v with
  | Some (JBool b) => b
  | _ => false
  end.

(** ** Responses *)

(** The texts of the [error] field. *)
Inductive Message : Type :=
  | ErroAoListarTarefas          (* Erro ao listar tarefas *)
  | CampoTaskObrigatorio         (* O campo task é obrigatório e deve ser uma string não vazia *)
  | CampoTaskInvalido            (* O campo task deve ser uma string não vazia *)
  | CampoCompletedInvalido       (* O campo completed deve ser um booleano *)
  | TarefaNaoEncontrada          (* Tarefa não encontrada *)
  | ErroAoProcessarRequisicao.   (* Erro ao processar a requisição *)

(** The envelope [{ success, data?, error? }]. *)
Inductive Envelope (T : Type) : Type :=
  | Success (data : T + list T)
  | Failure (error : Message).
Arguments Success {T} data.
Arguments Failure {T} error.

Record Response (T : Type) : Type := json { payload : Envelope T; status : Z }.
Arguments json {T} payload status.
Arguments payload {T} r.
Arguments status {T} r.

(** [c.json(x)] without a status answers 200. *)
Definition json_ok {T} (e : Envelope T) : Response T := json e 200.

(** ** Handler bodies: state, early return, exceptions *)

Inductive Completion (R A : Type) : Type :=
  | Normal (a : A)
  | Return (r : R)
  | Throw (e : Exception).
Arguments Normal {R A} a.
Arguments Return {R A} r.
Arguments Throw {R A} e.

Definition Eff (S R A : Type) : Type := S → Completion R A * S.

Definition ret {S R A} (a : A) : Eff S R A := λ s, (Normal a, s).

Definition bind {S R A B} (m : Eff S R A) (k : A → Eff S R B) : Eff S R B :=
  λ s, match m s with
       | (Normal a, s') => k a s'
       | (Return r, s') => (Return r, s')
       | (Throw e, s') => (Throw e, s')
       end.

Definition return_ {S R A} (r : R) : Eff S R A := λ s, (Return r, s).
Definition throw {S R A} (e : Exception) : Eff S R A := λ s, (Throw e, s).
Definition gets {S R A} (f : S → A) : Eff S R A := λ s, (Normal (f s), s).
Definition modify {S R} (f : S → S) : Eff S R unit := λ s, (Normal tt, f s).

(** An [await]ed call that may reject. *)
Definition lift {S R A} (x : Exception + A) : Eff S R A :=
  match x with inl e => throw e | inr a => ret a end.

(** [if (b) { return r }] *)
Definition return_if {S R} (b : bool) (r : R) : Eff S R unit :=
  if b then return_ r else ret tt.

(** [if (b) { m }] *)
Definition when {S R} (b : bool) (m : Eff S R unit) : Eff S R unit :=
  if b then m else ret tt.

(** [try { m } catch (error) { h error }] *)
Definition try_catch {S R A} (m : Eff S R A) (h : Exception → Eff S R A) : Eff S R A :=
  λ s, match m s with
       | (Throw e, s') => h e s'
       | other => other
       end.

Global Instance Eff_ret {S R} : MRet (Eff S R) := λ A, ret.
Global Instance Eff_bind {S R} : MBind (Eff S R) := λ A B k m, bind m k.

(** A handler whose every path ends in [return]: the response and the state
    it leaves.  An exception that escapes reaches Hono's default error
    handler, which answers 500 with a plain text; [uncaught] stands for
    that answer. *)
Definition run_handler {S R} (uncaught : R) (m : Eff S R Empty_set) (s : S) : R * S :=
  match m s with
  | (Return r, s') => (r, s')
  | (Throw _, s') => (uncaught, s')
  | (Normal x, _) => match x with end
  end.

(** [Array.prototype.findIndex]: the first index whose element passes, or -1. *)
Fixpoint findIndex_from {T} (p : T → bool) (l : list T) (i : Z) : Z :=
  match l with
  | [] => -1
  | t :: l' => if p t then i else findIndex_from p l' (i + 1)
  end.

Definition findIndex {T} (p : T → bool) (l : list T) : Z := findIndex_from p l 0.

(** [a[i]] for a numeric index: [undefined] outside the array. *)
Definition at_index {T} (l : list T) (i : Z) : option T :=
  if i <? 0 then None else l !! Z.to_nat i.

(** ** [src/server.ts] *)

Module Server.

Record Task : Type :=
  { id : jsstring; task : jsstring; completed : bool; createdAt : jsstring }.

(** [t.task = v] and [t.completed = b] *)
Definition with_task (v : jsstring) (t : Task) : Task :=
  {| id := id t; task := v; completed := completed t; createdAt := createdAt t |}.
Definition with_completed (b : bool) (t : Task) : Task :=
  {| id := id t; task := task t; completed := b; createdAt := createdAt t |}.

(** How the [TODO_KV] binding answers while one request is served: each of
    its two calls either resolves or rejects.  A [put] that rejects has
    stored nothing. *)
Record KVNamespace : Type := { get_rejects : bool; put_rejects : bool }.

(** [c.req]: the [:id] path parameter and the outcome of [c.req.json()]. *)
Record HonoRequest : Type := { param_id : jsstring; req_json : Exception + JSON }.

(** [c]: the binding, absent in a local run, and the request. *)
Record AppContext : Type := { TODO_KV : option KVNamespace; req : HonoRequest }.

(** What the runtime hands out during one request: the value of
    [crypto.randomUUID()] and of [new Date().toISOString()]. *)
Record Host : Type := { randomUUID : jsstring; toISOString : jsstring }.

(** The state that outlives a request: the module variable [localTasks]
    and the contents of the KV namespace.  The text stored under a key is
    held as the array it parses to ([JSON.parse] after [JSON.stringify]
    rebuilds the array, record by record). *)
Record World : Type := { localTasks : list Task; kv : gmap string (list Task) }.

Definition set_localTasks (l : list Task) (w : World) : World :=
  {| localTasks := l; kv := kv w |}.
Definition set_kv (m : gmap string (list Task)) (w : World) : World :=
  {| localTasks := localTasks w; kv := m |}.

(** While a request runs there is one more array: the one [JSON.parse]
    (or the literal [[]]) has just built.  A variable of type [Task[]] holds
    a reference to either array, so that writing through it changes the
    array it points to. *)
Record Machine : Type := { world : World; parsed : list Task }.

Inductive ArrayRef : Type := LocalTasksArray | ParsedArray.

Definition deref (a : ArrayRef) (m : Machine) : list Task :=
  match a with
  | LocalTasksArray => localTasks (world m)
  | ParsedArray => parsed m
  end.

Definition store (a : ArrayRef) (l : list Task) (m : Machine) : Machine :=
  match a with
  | LocalTasksArray => {| world := set_localTasks l (world m); parsed := parsed m |}
  | ParsedArray => {| world := world m; parsed := l |}
  end.

Definition Handler (A : Type) : Type := Eff Machine (Response Task) A.

(** [JSON.parse(text)] or [[]]: a new array. *)
Definition fresh_array (l : list Task) : Handler ArrayRef :=
  modify (store ParsedArray l);; mret ParsedArray.

(** [a.push(t)] *)
Definition push (a : ArrayRef) (t : Task) : Handler unit :=
  modify (λ m, store a (deref a m ++ [t]) m).

(** [a.findIndex(p)] *)
Definition array_findIndex (a : ArrayRef) (p : Task → bool) : Handler Z :=
  gets (λ m, findIndex p (deref a m)).

(** [a[i]], read for one of its fields: a [TypeError] when it is
    [undefined]. *)
Definition element (a : ArrayRef) (i : Z) : Handler Task :=
  l ← gets (deref a);
  match at_index l i with
  | Some t => mret t
  | None => throw TypeError
  end.

(** [a[i].field = v], as the record update [f]. *)
Definition assign (a : ArrayRef) (i : Z) (f : Task → Task) : Handler unit :=
  t ← element a i;
  modify (λ m, store a (<[Z.to_nat i := f t]> (deref a m)) m).

(** [a.splice(i, 1)[0]], for an index that is not negative; the removed
    element is read for its [id] right after. *)
Definition splice_one (a : ArrayRef) (i : Z) : Handler Task :=
  l ← gets (deref a);
  match at_index l i with
  | Some t => modify (store a (delete (Z.to_nat i) l));; mret t
  | None => throw TypeError
  end.

(** [c.env.TODO_KV.get(key)]: the stored text, or [null]. *)
Definition kv_get (ns : KVNamespace) (key : string) : Handler (option (list Task)) :=
  if get_rejects ns then throw (Error "KV get") else gets (λ m, kv (world m) !! key).

(** [c.env.TODO_KV.put(key, JSON.stringify(l))] *)
Definition kv_put (ns : KVNamespace) (key : string) (l : list Task) : Handler unit :=
  if put_rejects ns then throw (Error "KV put")
  else modify (λ m, {| world := set_kv (<[key := l]> (kv (world m))) (world m);
                      parsed := parsed m |}).

Definition generateId (g : Host) : jsstring := randomUUID g.

Definition getTasks (c : AppContext) : Handler ArrayRef :=
  match TODO_KV c with
  | Some ns =>
      try_catch
        (tasksData ← kv_get ns "tasks";
         match tasksData with
         | Some l => fresh_array l
         | None => fresh_array []
         end)
        (λ _, throw (Error "Failed to load tasks from KV"))
  | None => mret LocalTasksArray
  end.

Definition saveTasks (c : AppContext) (tasks : ArrayRef) : Handler unit :=
  match TODO_KV c with
  | Some ns =>
      try_catch
        (l ← gets (deref tasks); kv_put ns "tasks" l)
        (λ _, throw (Error "Failed to save tasks to KV"))
  | None =>
      l ← gets (deref tasks);
      modify (λ m, {| world := set_localTasks l (world m); parsed := parsed m |})
  end.

Definition is_undefined (v : JSValue) : bool :=
  match v with None => true | Some _ => false end.

Definition is_type (v : JSValue) (t : TypeTag) : bool := bool_decide (typeof v = t).

(** Every handler of this file catches what its body throws, so the
    answer for an uncaught exception is never used. *)
Definition serve (body : Handler Empty_set) (w : World) : Response Task * World :=
  let '(r, m) :=
    run_handler (json (Failure ErroAoProcessarRequisicao) 500) body
                {| world := w; parsed := [] |} in
  (r, world m).

(** [app.get('/api/todos', ...)] *)
Definition get_api_todos (c : AppContext) : World → Response Task * World :=
  serve
    (try_catch
       (tasks ← getTasks c;
        l ← gets (deref tasks);
        return_ (json_ok (Success (inr l))))
       (λ _, return_ (json (Failure ErroAoListarTarefas) 500))).

(** [app.post('/api/todos', ...)] *)
Definition post_api_todos (g : Host) (c : AppContext) : World → Response Task * World :=
  serve
    (try_catch
       (body ← lift (req_json (req c));
        body_task ← lift (property body (js "task"));
        return_if (negb (toBoolean body_task)
                   || negb (is_type body_task TString)
                   || is_empty (trim_of body_task))
                  (json (Failure CampoTaskObrigatorio) 400);;
        let newTask :=
          {| id := generateId g; task := trim_of body_task;
             completed := false; createdAt := toISOString g |} in
        tasks ← getTasks c;
        push tasks newTask;;
        saveTasks c tasks;;
        return_ (json (Success (inl newTask)) 201))
       (λ _, return_ (json (Failure ErroAoProcessarRequisicao) 500))).

(** [app.put('/api/todos/:id', ...)] *)
Definition put_api_todos_id (c : AppContext) : World → Response Task * World :=
  serve
    (try_catch
       (let id' := param_id (req c) in
        body ← lift (req_json (req c));
        tasks ← getTasks c;
        taskIndex ← array_findIndex tasks (λ t, bool_decide (id t = id'));
        return_if (taskIndex =? -1) (json (Failure TarefaNaoEncontrada) 404);;
        body_task ← lift (property body (js "task"));
        when (negb (is_undefined body_task))
          (return_if (negb (is_type body_task TString) || is_empty (trim_of body_task))
                     (json (Failure CampoTaskInvalido) 400);;
           assign tasks taskIndex (with_task (trim_of body_task)));;
        body_completed ← lift (property body (js "completed"));
        when (negb (is_undefined body_completed))
          (return_if (negb (is_type body_completed TBoolean))
                     (json (Failure CampoCompletedInvalido) 400);;
           assign tasks taskIndex (with_completed (boolean_of body_completed)));;
        saveTasks c tasks;;
        t ← element tasks taskIndex;
        return_ (json_ok (Success (inl t))))
       (λ _, return_ (json (Failure ErroAoProcessarRequisicao) 500))).

(** [app.delete('/api/todos/:id', ...)] *)
Definition delete_api_todos_id (c : AppContext) : World → Response Task * World :=
  serve
    (try_catch
       (let id' := param_id (req c) in
        tasks ← getTasks c;
        taskIndex ← array_findIndex tasks (λ t, bool_decide (id t = id'));
        return_if (taskIndex =? -1) (json (Failure TarefaNaoEncontrada) 404);;
        deletedTask ← splice_one tasks taskIndex;
        saveTasks c tasks;;
        return_ (json_ok (Success (inl deletedTask))))
       (λ _, return_ (json (Failure ErroAoProcessarRequisicao) 500))).

(** The collection a request served with context [c] works on. *)
Definition collection (c : AppContext) (w : World) : list Task :=
  match TODO_KV c with
  | Some _ => default [] (kv w !! "tasks")
  | None => localTasks w
  end.

(** Whether the binding's [get], or its [put], rejects while [c] is
    served; a local run has no binding to reject. *)
Definition kv_get_rejects (c : AppContext) : bool :=
  match TODO_KV c with Some ns => get_rejects ns | None => false end.
Definition kv_put_rejects (c : AppContext) : bool :=
  match TODO_KV c with Some ns => put_rejects ns | None => false end.

(** No call to the binding rejects while [c] is served. *)
Definition storage_answers (c : AppContext) : Prop :=
  kv_get_rejects c = false ∧ kv_put_rejects c = false.

Definition empty_world : World := {| localTasks := []; kv := ∅ |}.

(** The store after [saveTasks] has written the array [l]. *)
Definition persist (c : AppContext) (l : list Task) (w : World) : World :=
  match TODO_KV c with
  | Some _ => set_kv (<["tasks" := l]> (kv w)) w
  | None => set_localTasks l w
  end.

Definition is_success (r : Response Task) : bool :=
  match payload r with Success _ => true | Failure _ => false end.

(** The record a response carries in [data]. *)
Definition returned_task (r : Response Task) : option Task :=
  match payload r with Success (inl t) => Some t | _ => None end.

(** *** Sequences of requests *)

Inductive Call : Type :=
  | List (c : AppContext)
  | Create (g : Host) (c : AppContext)
  | Update (c : AppContext)
  | Delete (c : AppContext).

Definition context (k : Call) : AppContext :=
  match k with List c | Create _ c | Update c | Delete c => c end.

Definition handle (k : Call) : World → Response Task * World :=
  match k with
  | List c => get_api_todos c
  | Create g c => post_api_todos g c
  | Update c => put_api_todos_id c
  | Delete c => delete_api_todos_id c
  end.

(** Serving the requests one after the other: the responses, in order,
    and the store at the end. *)
Fixpoint run (calls : list Call) (w : World) : list (Response Task) * World :=
  match calls with
  | [] => ([], w)
  | k :: calls' =>
      let '(r, w1) := handle k w in
      let '(rs, w2) := run calls' w1 in
      (r :: rs, w2)
  end.

(** Whether the request is served from the KV namespace. *)
Definition uses_kv (c : AppContext) : bool :=
  match TODO_KV c with Some _ => true | None => false end.

Definition is_create (k : Call) : bool :=
  match k with Create _ _ => true | _ => false end.
Definition is_delete (k : Call) : bool :=
  match k with Delete _ => true | _ => false end.

(** The collection of the KV namespace ([true]) or of the local run. *)
Definition stored (kvmode : bool) (w : World) : list Task :=
  if kvmode then default [] (kv w !! "tasks") else localTasks w.

(** The calls selected by [sel] that were answered with [success: true],
    each with its response. *)
Definition successful (sel : Call → bool) (calls : list Call)
           (rs : list (Response Task)) : list (Call * Response Task) :=
  filter (λ p, sel p.1 && is_success p.2 = true) (zip calls rs).

(** The records those calls answered with, in the order of the calls. *)
Definition returned_by (sel : Call → bool) (calls : list Call)
           (rs : list (Response Task)) : list Task :=
  omap (λ p, returned_task p.2) (successful sel calls rs).

(** The id that [crypto.randomUUID()] hands to a create request is none of
    those in the collection the request works on. *)
Definition fresh_id (k : Call) (w : World) : Prop :=
  match k with
  | Create g c => randomUUID g ∉ id <$> collection c w
  | _ => True
  end.

(** The stores that requests can lead to from the empty one, when every
    generated id is fresh. *)
Inductive reachable : World → Prop :=
  | reachable_empty : reachable empty_world
  | reachable_step k w : reachable w → fresh_id k w → reachable (handle k w).2.

(** The stores that any sequence of requests leads to from the empty one. *)
Inductive obtainable : World → Prop :=
  | obtainable_empty : obtainable empty_world
  | obtainable_step k w : obtainable w → obtainable (handle k w).2.

(** A record whose [task] is not empty and has no white space at either
    end. *)
Definition tidy (t : Task) : Prop := task t ≠ [] ∧ trim (task t) = task t.

End Server.

(** ** The revision that stores to KV only

    Ids are numbers taken from the clock, [getTasks] and [saveTasks] swallow
    what the binding throws, and the update handler coerces [completed]. *)

Module KVOnly.

Record Task : Type :=
  { id : Z; task : jsstring; completed : bool; createdAt : option jsstring }.

Definition with_task (v : jsstring) (t : Task) : Task :=
  {| id := id t; task := v; completed := completed t; createdAt := createdAt t |}.
Definition with_completed (b : bool) (t : Task) : Task :=
  {| id := id t; task := task t; completed := b; createdAt := createdAt t |}.

Record KVNamespace : Type := { get_rejects : bool; put_rejects : bool }.
Record HonoRequest : Type := { param_id : jsstring; req_json : Exception + JSON }.
Record AppContext : Type := { TODO_KV : option KVNamespace; req : HonoRequest }.

(** [Date.now()] and [new Date().toISOString()] during one request. *)
Record Host : Type := { Date_now : Z; toISOString : jsstring }.

(** The contents of the KV namespace, each text as the array it parses to. *)
Definition World : Type := gmap string (list Task).

Definition Handler (A : Type) : Type := Eff World (Response Task) A.

Definition digit_value (u : N) : option Z :=
  if ((48 <=? u) && (u <=? 57))%N then Some (Z.of_N u - 48)
  else if ((97 <=? u) && (u <=? 122))%N then Some (Z.of_N u - 87)
  else if ((65 <=? u) && (u <=? 90))%N then Some (Z.of_N u - 55)
  else None.

(** The longest prefix of digits below [radix], read as a number; [acc] is
    [None] as long as no digit has been read. *)
Fixpoint parse_digits (radix : Z) (s : jsstring) (acc : option Z) : option Z :=
  match s with
  | [] => acc
  | u :: s' =>
      match digit_value u with
      | Some d =>
          if d <? radix then parse_digits radix s' (Some (default 0 acc * radix + d))
          else acc
      | None => acc
      end
  end.

(** [parseInt(s)] with no radix: [None] is [NaN].  The value is exact,
    as it is in JavaScript below 2^53, which covers every [Date.now()]. *)
Definition parseInt (s : jsstring) : option Z :=
  let s1 := trimStart s in
  let '(sign, s2) :=
    match s1 with
    | u :: r => if (u =? 45)%N then (-1, r) else if (u =? 43)%N then (1, r) else (1, s1)
    | [] => (1, s1)
    end in
  let '(radix, s3) :=
    match s2 with
    | u :: x :: r =>
        if ((u =? 48) && ((x =? 120) || (x =? 88)))%N then (16, r) else (10, s2)
    | _ => (10, s2)
    end in
  (λ n, sign * n) <$> parse_digits radix s3 None.

(** [task.id === id], where [id] may be [NaN]. *)
Definition id_is (id' : option Z) (t : Task) : bool :=
  match id' with
  | Some n => id t =? n
  | None => false
  end.

(** [c.env.TODO_KV.get(key)]; without a binding the call is a [TypeError]. *)
Definition kv_get (c : AppContext) (key : string) : Handler (option (list Task)) :=
  match TODO_KV c with
  | Some ns => if get_rejects ns then throw (Error "KV get") else gets (λ w, w !! key)
  | None => throw TypeError
  end.

Definition kv_put (c : AppContext) (key : string) (l : list Task) : Handler unit :=
  match TODO_KV c with
  | Some ns => if put_rejects ns then throw (Error "KV put") else modify (<[key := l]>)
  | None => throw TypeError
  end.

Definition getTasks (c : AppContext) : Handler (list Task) :=
  try_catch
    (tasksData ← kv_get c "tasks";
     mret (match tasksData with Some l => l | None => [] end))
    (λ _, mret []).

Definition saveTasks (c : AppContext) (tasks : list Task) : Handler unit :=
  try_catch (kv_put c "tasks" tasks) (λ _, mret tt).

Definition is_undefined (v : JSValue) : bool :=
  match v with None => true | Some _ => false end.

Definition is_type (v : JSValue) (t : TypeTag) : bool := bool_decide (typeof v = t).

Definition serve (body : Handler Empty_set) (w : World) : Response Task * World :=
  run_handler (json (Failure ErroAoProcessarRequisicao) 500) body w.

(** [tasks[i]], read for one of its fields. *)
Definition element (tasks : list Task) (i : Z) : Handler Task :=
  match at_index tasks i with
  | Some t => mret t
  | None => throw TypeError
  end.

(** [app.get('/api/todos', ...)] *)
Definition get_api_todos (c : AppContext) : World → Response Task * World :=
  serve (tasks ← getTasks c; return_ (json_ok (Success (inr tasks)))).

(** [app.post('/api/todos', ...)] *)
Definition post_api_todos (g : Host) (c : AppContext) : World → Response Task * World :=
  serve
    (try_catch
       (body ← lift (req_json (req c));
        body_task ← lift (property body (js "task"));
        return_if (negb (toBoolean body_task)
                   || negb (is_type body_task TString)
                   || is_empty (trim_of body_task))
                  (json (Failure CampoTaskObrigatorio) 400);;
        let newTask :=
          {| id := Date_now g; task := trim_of body_task;
             completed := false; createdAt := Some (toISOString g) |} in
        tasks ← getTasks c;
        let tasks := tasks ++ [newTask] in
        saveTasks c tasks;;
        return_ (json (Success (inl newTask)) 201))
       (λ _, return_ (json (Failure ErroAoProcessarRequisicao) 400))).

(** [app.put('/api/todos/:id', ...)]; the array is rebound where the source
    writes through [tasks[taskIndex]]. *)
Definition put_api_todos_id (c : AppContext) : World → Response Task * World :=
  serve
    (try_catch
       (let id' := parseInt (param_id (req c)) in
        body ← lift (req_json (req c));
        tasks ← getTasks c;
        let taskIndex := findIndex (id_is id') tasks in
        return_if (taskIndex =? -1) (json (Failure TarefaNaoEncontrada) 404);;
        body_task ← lift (property body (js "task"));
        tasks ← (if negb (is_undefined body_task) then
                   return_if (negb (is_type body_task TString) || is_empty (trim_of body_task))
                             (json (Failure CampoTaskInvalido) 400);;
                   t ← element tasks taskIndex;
                   mret (<[Z.to_nat taskIndex := with_task (trim_of body_task) t]> tasks)
                 else mret tasks);
        body_completed ← lift (property body (js "completed"));
        tasks ← (if negb (is_undefined body_completed) then
                   t ← element tasks taskIndex;
                   mret (<[Z.to_nat taskIndex := with_completed (toBoolean body_completed) t]> tasks)
                 else mret tasks);
        saveTasks c tasks;;
        t ← element tasks taskIndex;
        return_ (json_ok (Success (inl t))))
       (λ _, return_ (json (Failure ErroAoProcessarRequisicao) 400))).

Definition collection (w : World) : list Task := default [] (w !! "tasks").

(** What [getTasks] hands to a handler: the stored collection, or the empty
    array when there is no binding or the read rejects. *)
Definition loaded (c : AppContext) (w : World) : list Task :=
  match TODO_KV c with
  | Some ns => if get_rejects ns then [] else collection w
  | None => []
  end.

(** The store after [saveTasks]: the array is written, unless there is no
    binding or the write rejects. *)
Definition saved (c : AppContext) (l : list Task) (w : World) : World :=
  match TODO_KV c with
  | Some ns => if put_rejects ns then w else <["tasks" := l]> w
  | None => w
  end.

End KVOnly.

(** ** The revision that mirrors the local list to a file

    [src/server.ts] once more (the third text in the file): as in [Server],
    with the in-memory list read from [local-tasks.json] when the module is
    loaded and written back by every local save.  The mutating handlers
    answer 400 where [Server] answers 500, and the list handler has no
    [try]. *)

Module FileBacked.

Abbreviation Task := Server.Task.
Abbreviation AppContext := Server.AppContext.
Abbreviation ArrayRef := Server.ArrayRef.

(** The state that outlives a request: the module variable [localTasks],
    the contents of the KV namespace and those of [local-tasks.json].  A
    text is held as the array it parses to; the file is [None] when it is
    missing or does not hold JSON. *)
Record World : Type :=
  { localTasks : list Task; kv : gmap string (list Task); file : option (list Task) }.

Definition set_localTasks (l : list Task) (w : World) : World :=
  {| localTasks := l; kv := kv w; file := file w |}.
Definition set_kv (m : gmap string (list Task)) (w : World) : World :=
  {| localTasks := localTasks w; kv := m; file := file w |}.
Definition set_file (f : option (list Task)) (w : World) : World :=
  {| localTasks := localTasks w; kv := kv w; file := f |}.

(** Where a [writeFileSync] that throws does so: when it opens the file,
    while it writes the text, or when it closes the file. *)
Inductive WriteStage : Type := OnOpen | OnWrite | OnClose.

(** Whether [writeFileSync] throws while one request is served, and where
    it does when it does. *)
Record FileSystem : Type := { write_throws : bool; throws_at : WriteStage }.

Record Machine : Type := { world : World; parsed : list Task }.

Definition deref (a : ArrayRef) (m : Machine) : list Task :=
  match a with
  | Server.LocalTasksArray => localTasks (world m)
  | Server.ParsedArray => parsed m
  end.

Definition store (a : ArrayRef) (l : list Task) (m : Machine) : Machine :=
  match a with
  | Server.LocalTasksArray => {| world := set_localTasks l (world m); parsed := parsed m |}
  | Server.ParsedArray => {| world := world m; parsed := l |}
  end.

Definition Handler (R A : Type) : Type := Eff Machine R A.

Definition fresh_array {R} (l : list Task) : Handler R ArrayRef :=
  modify (store Server.ParsedArray l);; mret Server.ParsedArray.

Definition push {R} (a : ArrayRef) (t : Task) : Handler R unit :=
  modify (λ m, store a (deref a m ++ [t]) m).

Definition array_findIndex {R} (a : ArrayRef) (p : Task → bool) : Handler R Z :=
  gets (λ m, findIndex p (deref a m)).

(** [a[i]], read for one of its fields. *)
Definition element {R} (a : ArrayRef) (i : Z) : Handler R Task :=
  l ← gets (deref a);
  match at_index l i with
  | Some t => mret t
  | None => throw TypeError
  end.

(** [a[i]] as a value: the record, or [undefined]. *)
Definition element_or_undefined {R} (a : ArrayRef) (i : Z) : Handler R (option Task) :=
  gets (λ m, at_index (deref a m) i).

Definition assign {R} (a : ArrayRef) (i : Z) (f : Task → Task) : Handler R unit :=
  t ← element a i;
  modify (λ m, store a (<[Z.to_nat i := f t]> (deref a m)) m).

(** [a.splice(i, 1)[0]], for an index that is not negative: the removed
    record, or [undefined] when the index is past the end. *)
Definition splice_one {R} (a : ArrayRef) (i : Z) : Handler R (option Task) :=
  l ← gets (deref a);
  modify (store a (delete (Z.to_nat i) l));;
  mret (at_index l i).

Definition kv_get {R} (ns : Server.KVNamespace) (key : string)
  : Handler R (option (list Task)) :=
  if Server.get_rejects ns then throw (Error "KV get")
  else gets (λ m, kv (world m) !! key).

Definition kv_put {R} (ns : Server.KVNamespace) (key : string) (l : list Task)
  : Handler R unit :=
  if Server.put_rejects ns then throw (Error "KV put")
  else modify (λ m, {| world := set_kv (<[key := l]> (kv (world m))) (world m);
                      parsed := parsed m |}).

Definition generateId (g : Server.Host) : jsstring := Server.randomUUID g.

(** [readFileSync(LOCAL_DATA_FILE, 'utf8')] followed by [JSON.parse]. *)
Definition read_and_parse (f : option (list Task)) : Exception + list Task :=
  match f with
  | Some l => inr l
  | None => inl (Error "ENOENT")
  end.

Definition loadLocalTasks (f : option (list Task)) : list Task :=
  match read_and_parse f with
  | inr data => data
  | inl _ => []
  end.

(** [writeFileSync(LOCAL_DATA_FILE, JSON.stringify(data, null, 2))]: the
    file is opened with flag ['w'], which empties it, the text is written
    and the file is closed.  A call that throws at the opening leaves the
    file as it was; one that throws while it writes leaves an empty file or
    a text cut short, neither of which is JSON; one that throws at the
    closing leaves the whole text. *)
Definition writeFileSync {R} (fs : FileSystem) (data : list Task) : Handler R unit :=
  let write (f : option (list Task)) : Handler R unit :=
    modify (λ m, {| world := set_file f (world m); parsed := parsed m |}) in
  if write_throws fs then
    match throws_at fs with
    | OnOpen => throw (Error "EACCES")
    | OnWrite => write None;; throw (Error "ENOSPC")
    | OnClose => write (Some data);; throw (Error "EIO")
    end
  else write (Some data).

Definition saveLocalTasks {R} (fs : FileSystem) (tasks : list Task) : Handler R unit :=
  try_catch (writeFileSync fs tasks) (λ _, mret tt).

(** The state right after the module is loaded:
    [let localTasks = loadLocalTasks()]. *)
Definition loaded_module (kv0 : gmap string (list Task)) (f : option (list Task)) : World :=
  {| localTasks := loadLocalTasks f; kv := kv0; file := f |}.

Definition getTasks {R} (c : AppContext) : Handler R ArrayRef :=
  match Server.TODO_KV c with
  | Some ns =>
      try_catch
        (tasksData ← kv_get ns "tasks";
         match tasksData with
         | Some l => fresh_array l
         | None => fresh_array []
         end)
        (λ _, throw (Error "Failed to load tasks from KV"))
  | None => mret Server.LocalTasksArray
  end.

Definition saveTasks {R} (fs : FileSystem) (c : AppContext) (tasks : ArrayRef)
  : Handler R unit :=
  match Server.TODO_KV c with
  | Some ns =>
      try_catch
        (l ← gets (deref tasks); kv_put ns "tasks" l)
        (λ _, throw (Error "Failed to save tasks to KV"))
  | None =>
      l ← gets (deref tasks);
      modify (λ m, {| world := set_localTasks l (world m); parsed := parsed m |});;
      saveLocalTasks fs l
  end.

(** A handler that catches what its body throws. *)
Definition serve {T} (body : Handler (Response T) Empty_set) (w : World)
  : Response T * World :=
  let '(r, m) :=
    run_handler (json (Failure ErroAoProcessarRequisicao) 500) body
                {| world := w; parsed := [] |} in
  (r, world m).

(** [app.get('/api/todos', ...)]: nothing is caught, so that [None] stands
    for the plain 500 of Hono's own error handler. *)
Definition get_api_todos (c : AppContext) (w : World) : option (Response Task) * World :=
  let '(r, m) :=
    run_handler None
      (tasks ← getTasks c;
       l ← gets (deref tasks);
       return_ (Some (json_ok (Success (inr l)))))
      {| world := w; parsed := [] |} in
  (r, world m).

(** [app.post('/api/todos', ...)] *)
Definition post_api_todos (g : Server.Host) (fs : FileSystem) (c : AppContext)
  : World → Response Task * World :=
  serve
    (try_catch
       (body ← lift (Server.req_json (Server.req c));
        body_task ← lift (property body (js "task"));
        return_if (negb (toBoolean body_task)
                   || negb (Server.is_type body_task TString)
                   || is_empty (trim_of body_task))
                  (json (Failure CampoTaskObrigatorio) 400);;
        let newTask :=
          {| Server.id := generateId g; Server.task := trim_of body_task;
             Server.completed := false; Server.createdAt := Server.toISOString g |} in
        tasks ← getTasks c;
        push tasks newTask;;
        saveTasks fs c tasks;;
        return_ (json (Success (inl newTask)) 201))
       (λ _, return_ (json (Failure ErroAoProcessarRequisicao) 400))).

(** [app.put('/api/todos/:id', ...)]; [data] is [tasks[taskIndex]] as it
    is, a record or [undefined]. *)
Definition put_api_todos_id (fs : FileSystem) (c : AppContext)
  : World → Response (option Task) * World :=
  serve
    (try_catch
       (let id' := Server.param_id (Server.req c) in
        body ← lift (Server.req_json (Server.req c));
        tasks ← getTasks c;
        taskIndex ← array_findIndex tasks (λ t, bool_decide (Server.id t = id'));
        return_if (taskIndex =? -1) (json (Failure TarefaNaoEncontrada) 404);;
        body_task ← lift (property body (js "task"));
        when (negb (Server.is_undefined body_task))
          (return_if (negb (Server.is_type body_task TString)
                      || is_empty (trim_of body_task))
                     (json (Failure CampoTaskInvalido) 400);;
           assign tasks taskIndex (Server.with_task (trim_of body_task)));;
        body_completed ← lift (property body (js "completed"));
        when (negb (Server.is_undefined body_completed))
          (return_if (negb (Server.is_type body_completed TBoolean))
                     (json (Failure CampoCompletedInvalido) 400);;
           assign tasks taskIndex (Server.with_completed (boolean_of body_completed)));;
        saveTasks fs c tasks;;
        t ← element_or_undefined tasks taskIndex;
        return_ (json_ok (Success (inl t))))
       (λ _, return_ (json (Failure ErroAoProcessarRequisicao) 400))).

(** [app.delete('/api/todos/:id', ...)] *)
Definition delete_api_todos_id (fs : FileSystem) (c : AppContext)
  : World → Response (option Task) * World :=
  serve
    (try_catch
       (let id' := Server.param_id (Server.req c) in
        tasks ← getTasks c;
        taskIndex ← array_findIndex tasks (λ t, bool_decide (Server.id t = id'));
        return_if (taskIndex =? -1) (json (Failure TarefaNaoEncontrada) 404);;
        deletedTask ← splice_one tasks taskIndex;
        saveTasks fs c tasks;;
        return_ (json_ok (Success (inl deletedTask))))
       (λ _, return_ (json (Failure ErroAoProcessarRequisicao) 400))).

(** The collection a request served with context [c] works on. *)
Definition collection (c : AppContext) (w : World) : list Task :=
  match Server.TODO_KV c with
  | Some _ => default [] (kv w !! "tasks")
  | None => localTasks w
  end.

(** What [local-tasks.json] holds after [saveLocalTasks(l)], when it held
    [f] before. *)
Definition file_after_save (fs : FileSystem) (l : list Task) (f : option (list Task))
  : option (list Task) :=
  if write_throws fs then
    match throws_at fs with
    | OnOpen => f
    | OnWrite => None
    | OnClose => Some l
    end
  else Some l.

(** The store after [saveTasks] has gone through with the array [l]. *)
Definition persist (fs : FileSystem) (c : AppContext) (l : list Task) (w : World) : World :=
  match Server.TODO_KV c with
  | Some _ => set_kv (<["tasks" := l]> (kv w)) w
  | None => set_file (file_after_save fs l (file w)) (set_localTasks l w)
  end.

(** The part of the state that [Server] has too. *)
Definition memory (w : World) : Server.World :=
  {| Server.localTasks := localTasks w; Server.kv := kv w |}.

Definition succeeded {T} (r : Response T) : bool :=
  match payload r with Success _ => true | Failure _ => false end.

(** The answer of this revision where [Server] answers [r]: the general
    failure comes with 400 instead of 500. *)
Definition with_400 {T} (r : Response T) : Response T :=
  match payload r with
  | Failure ErroAoProcessarRequisicao => json (Failure ErroAoProcessarRequisicao) 400
  | _ => r
  end.

(** A response whose [data] is a record, as one whose [data] may be
    [undefined]. *)
Definition with_optional_data (r : Response Task) : Response (option Task) :=
  json (match payload r with
        | Success (inl t) => Success (inl (Some t))
        | Success (inr l) => Success (inr (Some <$> l))
        | Failure e => Failure e
        end) (status r).

End FileBacked.

(** ** The first revision ([src/server.ts] as a prototype)

    A module-level array, ids from the clock, no envelope, no checks and no
    [try]: what the body throws reaches Hono's own error handler. *)

Module Prototype.

(** [{ id, task }], where [task] is whatever the body held, [undefined]
    included. *)
Record Task : Type := { id : Z; task : JSValue }.

Inductive Reply : Type :=
  | Json (data : Task + list Task) (status : Z)
  | InternalServerError.

(** The array [tasks] as the module creates it. *)
Definition tasks : list Task :=
  [ {| id := 1; task := Some (JStr (js "Escovar os dentes")) |};
    {| id := 2; task := Some (JStr (js "Estudar Vue.js")) |} ].

Definition Handler (A : Type) : Type := Eff (list Task) Reply A.

(** [app.get('/api/todos', ...)] *)
Definition get_api_todos : list Task → Reply * list Task :=
  run_handler InternalServerError
    (l ← gets (λ l, l); return_ (Json (inr l) 200)).

(** [app.post('/api/todos', ...)], for the outcome of [c.req.json()] and
    the value of [Date.now()]. *)
Definition post_api_todos (Date_now : Z) (req_json : Exception + JSON)
  : list Task → Reply * list Task :=
  run_handler InternalServerError
    (body ← lift req_json;
     body_task ← lift (property body (js "task"));
     let newTask := {| id := Date_now; task := body_task |} in
     modify (λ l, l ++ [newTask]);;
     return_ (Json (inl newTask) 200)).

End Prototype.

(** ** Sample data for the examples *)

Module Sample.
Import Server.

Definition answering : KVNamespace := {| get_rejects := false; put_rejects := false |}.

Definition request (i : jsstring) (body : JSON) : HonoRequest :=
  {| param_id := i; req_json := inr body |}.

(** A request of a local run, and one served with the KV binding. *)
Definition local (r : HonoRequest) : AppContext := {| TODO_KV := None; req := r |}.
Definition production (r : HonoRequest) : AppContext :=
  {| TODO_KV := Some answering; req := r |}.

Definition host1 : Host :=
  {| randomUUID := js "0b0e7a4c-5d2f-4c1e-9a57-1f4a2d9c6e01";
     toISOString := js "2024-05-01T10:00:00.000Z" |}.
Definition host2 : Host :=
  {| randomUUID := js "7c9d3b1a-2e4f-4d6a-8b90-3a5c7e9f1b02";
     toISOString := js "2024-05-01T10:00:05.000Z" |}.
Definition host3 : Host :=
  {| randomUUID := js "c1a5e0de-93f1-4b7e-8d2a-5e6f7a8b9c03";
     toISOString := js "2024-05-01T10:00:09.000Z" |}.

Definition buy_milk : JSON := JObj [(js "task", JStr (js "  Buy milk "))].
Definition walk_dog : JSON := JObj [(js "task", JStr (js "Walk the dog"))].

Definition milk : Task :=
  {| id := randomUUID host1; task := js "Buy milk"; completed := false;
     createdAt := toISOString host1 |}.
Definition dog : Task :=
  {| id := randomUUID host2; task := js "Walk the dog"; completed := false;
     createdAt := toISOString host2 |}.
Definition milk3 : Task :=
  {| id := randomUUID host3; task := js "Buy milk"; completed := false;
     createdAt := toISOString host3 |}.

Definition local_store : World := {| localTasks := [milk; dog]; kv := ∅ |}.
Definition kv_store : World := {| localTasks := []; kv := {[ "tasks" := [milk; dog] ]} |}.

Definition only_completed : JSON := JObj [(js "completed", JBool true)].
Definition empty_object : JSON := JObj [].

(** Two creates and the delete of the first record, in production. *)
Definition session : list Call :=
  [ Create host1 (production (request [] buy_milk));
    Create host2 (production (request [] walk_dog));
    Delete (production (request (randomUUID host1) JNull)) ].

End Sample.

(** * Properties *)

(** ** [findIndex] *)

Lemma findIndex_from_none {T} (p : T → bool) l i :
  (∀ t, t ∈ l → p t = false) → findIndex_from p l i = -1.
Proof.
  revert i. induction l as [|t l IH]; intros i H; simpl; [done|].
  rewrite (H t) by set_solver. apply IH. intros t' Ht'. apply H. set_solver.
Qed.

Lemma findIndex_from_first {T} (p : T → bool) l i n t :
  l !! n = Some t → p t = true →
  (∀ m t', (m < n)%nat → l !! m = Some t' → p t' = false) →
  findIndex_from p l i = i + Z.of_nat n.
Proof.
  revert i n. induction l as [|x l IH]; intros i n Hn Hp Hbefore; [done|].
  destruct n as [|n]; simpl in *.
  - injection Hn as ->. rewrite Hp. lia.
  - rewrite (Hbefore 0%nat x) by (done || lia).
    rewrite (IH (i + 1) n Hn Hp); [lia|].
    intros m t' Hm Ht'. apply (Hbefore (S m) t'); [lia|done].
Qed.

Lemma findIndex_from_cases {T} (p : T → bool) l i :
  (findIndex_from p l i = -1 ∧ ∀ t, t ∈ l → p t = false)
  ∨ (∃ n t, findIndex_from p l i = i + Z.of_nat n ∧ l !! n = Some t ∧ p t = true
            ∧ ∀ m t', (m < n)%nat → l !! m = Some t' → p t' = false).
Proof.
  revert i. induction l as [|x l IH]; intros i; simpl.
  - left. split; [done|]. intros t Ht. by apply elem_of_nil in Ht.
  - destruct (p x) eqn:Hx.
    + right. exists 0%nat, x. split; [lia|]. split; [done|]. split; [done|]. intros; lia.
    + destruct (IH (i + 1)) as [[-> Hall]|(n & t & -> & Hn & Hp & Hbefore)].
      * left. split; [done|]. intros t [->|Ht]%elem_of_cons; auto.
      * right. exists (S n), t. split; [lia|]. split; [done|]. split; [done|].
        intros [|m] t' Hm Ht'; simpl in Ht'; [congruence|].
        apply (Hbefore m t'); [lia|done].
Qed.

Lemma findIndex_none {T} (p : T → bool) l :
  (∀ t, t ∈ l → p t = false) → findIndex p l = -1.
Proof. apply findIndex_from_none. Qed.

Lemma findIndex_first {T} (p : T → bool) l n t :
  l !! n = Some t → p t = true →
  (∀ m t', (m < n)%nat → l !! m = Some t' → p t' = false) →
  findIndex p l = Z.of_nat n.
Proof. intros. unfold findIndex. by erewrite findIndex_from_first. Qed.

Lemma findIndex_cases {T} (p : T → bool) l :
  (findIndex p l = -1 ∧ ∀ t, t ∈ l → p t = false)
  ∨ (∃ n t, findIndex p l = Z.of_nat n ∧ l !! n = Some t ∧ p t = true
            ∧ ∀ m t', (m < n)%nat → l !! m = Some t' → p t' = false).
Proof.
  destruct (findIndex_from_cases p l 0) as [?|(n & t & ? & ?)]; [by left|].
  right. exists n, t. unfold findIndex. by rewrite Z.add_0_l in *.
Qed.

Lemma at_index_of_nat {T} (l : list T) (n : nat) : at_index l (Z.of_nat n) = l !! n.
Proof.
  unfold at_index. destruct (Z.ltb_spec (Z.of_nat n) 0); [lia|]. by rewrite Nat2Z.id.
Qed.

(** ** Running the handlers of [src/server.ts] *)

(** Unfolds the monad and the array operations, then reduces the record
    projections that meet a constructor. *)
Ltac run_eff :=
  cbv beta iota zeta delta
    [mbind mret Eff_bind Eff_ret bind ret return_ throw gets modify lift
     return_if when try_catch run_handler
     Server.serve Server.get_api_todos Server.post_api_todos
     Server.put_api_todos_id Server.delete_api_todos_id
     Server.fresh_array Server.push Server.array_findIndex Server.element
     Server.assign Server.splice_one Server.deref Server.store
     Server.generateId json_ok];
  cbn [Server.world Server.parsed Server.localTasks Server.kv
       Server.TODO_KV Server.req Server.param_id Server.req_json
       Server.get_rejects Server.put_rejects Server.set_localTasks Server.set_kv
       negb andb orb].

Section Server_facts.
Import Server.

Lemma getTasks_eq c m :
  getTasks c m =
    match TODO_KV c with
    | Some ns =>
        if get_rejects ns then (Throw (Error "Failed to load tasks from KV"), m)
        else (Normal ParsedArray, {| world := world m; parsed := collection c (world m) |})
    | None => (Normal LocalTasksArray, m)
    end.
Proof.
  unfold getTasks, collection. destruct (TODO_KV c) as [ns|]; [|done].
  unfold kv_get. destruct (get_rejects ns); [done|].
  run_eff. by destruct (kv (world m) !! "tasks"%string).
Qed.

Lemma saveTasks_eq c a m :
  saveTasks c a m =
    match TODO_KV c with
    | Some ns =>
        if put_rejects ns then (Throw (Error "Failed to save tasks to KV"), m)
        else (Normal tt, {| world := persist c (deref a m) (world m); parsed := parsed m |})
    | None => (Normal tt, {| world := persist c (deref a m) (world m); parsed := parsed m |})
    end.
Proof.
  unfold saveTasks, persist. destruct (TODO_KV c) as [ns|]; [|done].
  unfold kv_put. by destruct (put_rejects ns).
Qed.

(** Runs a handler body as far as the hypotheses at hand decide it. *)
Ltac put_go :=
  repeat progress
    (run_eff;
     repeat match goal with
       | H : property _ _ = _ |- _ => rewrite H
       | H : Server.TODO_KV _ = _ |- _ => rewrite H
       | H : _ !! _ = Some _ |- _ => rewrite H
       | _ => rewrite at_index_of_nat
       | _ => rewrite Nat2Z.id
       | _ => rewrite saveTasks_eq
       end).

Lemma collection_persist c l w : collection c (persist c l w) = l.
Proof.
  unfold collection, persist. destruct (TODO_KV c); [|done].
  simpl. by rewrite lookup_insert_eq.
Qed.

Lemma collection_local c w : TODO_KV c = None → collection c w = localTasks w.
Proof. unfold collection. by intros ->. Qed.

Lemma persist_local c l w : TODO_KV c = None → persist c l w = set_localTasks l w.
Proof. unfold persist. by intros ->. Qed.

(** Every way a create request can end. *)
Lemma post_cases g c w :
  (is_success (post_api_todos g c w).1 = false ∧ (post_api_todos g c w).2 = w)
  ∨ ∃ t, id t = randomUUID g
         ∧ post_api_todos g c w
           = (json (Success (inl t)) 201, persist c (collection c w ++ [t]) w).
Proof.
  unfold post_api_todos. run_eff.
  destruct (req_json (req c)) as [e|body]; run_eff; [by left|].
  destruct (property body (js "task")) as [e|v]; run_eff; [by left|].
  destruct (negb (toBoolean v) || negb (is_type v TString) || is_empty (trim_of v));
    run_eff; [by left|].
  rewrite getTasks_eq. destruct (TODO_KV c) as [ns|] eqn:Hkv.
  - destruct (get_rejects ns); run_eff; [by left|].
    rewrite saveTasks_eq, Hkv. destruct (put_rejects ns); run_eff; [by left|].
    right. eexists. split; [|reflexivity]. done.
  - run_eff. rewrite saveTasks_eq, Hkv. run_eff.
    right.
    exists {| id := randomUUID g; task := trim_of v; completed := false;
              createdAt := toISOString g |}.
    split; [done|]. rewrite (collection_local c w Hkv), !persist_local by done.
    reflexivity.
Qed.

(** The same for a local run, where [saveTasks] assigns [localTasks]. *)
Ltac local_go :=
  repeat progress
    (put_go;
     rewrite ?persist_local by done;
     rewrite ?list_lookup_insert_eq by (rewrite ?length_insert; done)).

Lemma of_nat_neq_minus_one (n : nat) : (Z.of_nat n =? -1) = false.
Proof. apply Z.eqb_neq. lia. Qed.

Lemma set_localTasks_same w : set_localTasks (localTasks w) w = w.
Proof. by destruct w. Qed.

(** The update handler on a stored record, for a body that is not [null]
    and a store that can be read: every way it can end. *)
Lemma put_found c w body vt vc n t :
  req_json (req c) = inr body →
  property body (js "task") = inr vt →
  property body (js "completed") = inr vc →
  kv_get_rejects c = false →
  findIndex (λ t, bool_decide (id t = param_id (req c))) (collection c w) = Z.of_nat n →
  collection c w !! n = Some t →
  put_api_todos_id c w =
    if negb (is_undefined vt) && (negb (is_type vt TString) || is_empty (trim_of vt))
    then (json (Failure CampoTaskInvalido) 400, w)
    else
      let t1 := if is_undefined vt then t else with_task (trim_of vt) t in
      if negb (is_undefined vc) && negb (is_type vc TBoolean)
      then (json (Failure CampoCompletedInvalido) 400,
            if uses_kv c then w else persist c (<[n := t1]> (collection c w)) w)
      else if kv_put_rejects c
      then (json (Failure ErroAoProcessarRequisicao) 500, w)
      else
        let t2 := if is_undefined vc then t1 else with_completed (boolean_of vc) t1 in
        (json (Success (inl t2)) 200, persist c (<[n := t2]> (collection c w)) w).
Proof.
  intros Hb Hvt Hvc Hg Hfi Ht.
  assert (n < length (collection c w))%nat as Hn by by eapply lookup_lt_Some.
  unfold put_api_todos_id. run_eff. rewrite Hb. run_eff. rewrite getTasks_eq.
  unfold kv_get_rejects, kv_put_rejects, uses_kv in *.
  destruct (TODO_KV c) as [[gr pr]|] eqn:Hkv.
  - simpl in Hg. subst gr. run_eff.
    rewrite Hfi, of_nat_neq_minus_one. run_eff. rewrite Hvt. run_eff.
    destruct (is_undefined vt); run_eff.
    + rewrite Hvc. run_eff. destruct (is_undefined vc); run_eff.
      * put_go. destruct pr; put_go; [done|]. by rewrite (list_insert_id _ _ _ Ht).
      * destruct (negb (is_type vc TBoolean)); put_go; [done|].
        destruct pr; put_go; [done|].
        rewrite list_lookup_insert_eq by done. by run_eff.
    + destruct (negb (is_type vt TString) || is_empty (trim_of vt)); run_eff; [done|].
      put_go. destruct (is_undefined vc); run_eff.
      * put_go. destruct pr; put_go; [done|].
        rewrite list_lookup_insert_eq by done. by run_eff.
      * destruct (negb (is_type vc TBoolean)); put_go; [done|].
        rewrite list_lookup_insert_eq by done. run_eff. put_go.
        destruct pr; put_go; [done|].
        rewrite list_lookup_insert_eq by (by rewrite length_insert). run_eff.
        by rewrite list_insert_insert_eq.
  - rewrite (collection_local c w Hkv) in *. run_eff.
    rewrite Hfi, of_nat_neq_minus_one. run_eff. rewrite Hvt. run_eff.
    destruct (is_undefined vt); run_eff.
    + rewrite Hvc. run_eff. destruct (is_undefined vc); run_eff.
      * local_go. rewrite (list_insert_id _ _ _ Ht). by destruct w.
      * destruct (negb (is_type vc TBoolean)); local_go; [|done].
        rewrite (list_insert_id _ _ _ Ht). by destruct w.
    + destruct (negb (is_type vt TString) || is_empty (trim_of vt)); run_eff; [done|].
      local_go. destruct (is_undefined vc); run_eff.
      * by local_go.
      * destruct (negb (is_type vc TBoolean)); local_go; [done|].
        by rewrite list_insert_insert_eq.
Qed.

Lemma put_unparsed c w e :
  req_json (req c) = inl e →
  put_api_todos_id c w = (json (Failure ErroAoProcessarRequisicao) 500, w).
Proof. intros Hb. unfold put_api_todos_id. run_eff. rewrite Hb. by run_eff. Qed.

Lemma put_unread c w body :
  req_json (req c) = inr body →
  kv_get_rejects c = true →
  put_api_todos_id c w = (json (Failure ErroAoProcessarRequisicao) 500, w).
Proof.
  intros Hb Hg. unfold put_api_todos_id. run_eff. rewrite Hb. run_eff.
  rewrite getTasks_eq. unfold kv_get_rejects in Hg.
  destruct (TODO_KV c) as [ns|]; [|done]. rewrite Hg. by run_eff.
Qed.

Lemma findIndex_unknown (i : jsstring) (l : list Task) :
  i ∉ id <$> l → findIndex (λ t, bool_decide (id t = i)) l = -1.
Proof.
  intros Hi. apply findIndex_none. intros t Ht. apply bool_decide_eq_false.
  intros Heq. apply Hi. rewrite <- Heq. by apply list_elem_of_fmap_2.
Qed.

Lemma findIndex_known (i : jsstring) (l : list Task) :
  i ∈ id <$> l →
  ∃ n t, findIndex (λ t, bool_decide (id t = i)) l = Z.of_nat n
         ∧ l !! n = Some t ∧ id t = i.
Proof.
  intros (t & -> & Ht)%list_elem_of_fmap.
  destruct (findIndex_cases (λ t', bool_decide (id t' = id t)) l)
    as [[_ Hnone]|(n & t' & Hfi & Hn & Hp & _)].
  - specialize (Hnone t Ht). by rewrite bool_decide_eq_false in Hnone.
  - exists n, t'. by apply bool_decide_eq_true in Hp.
Qed.

Lemma put_missing c w body :
  req_json (req c) = inr body →
  kv_get_rejects c = false →
  findIndex (λ t, bool_decide (id t = param_id (req c))) (collection c w) = -1 →
  put_api_todos_id c w = (json (Failure TarefaNaoEncontrada) 404, w).
Proof.
  intros Hb Hg Hfi. unfold put_api_todos_id. run_eff. rewrite Hb. run_eff.
  rewrite getTasks_eq. unfold kv_get_rejects in Hg.
  destruct (TODO_KV c) as [ns|] eqn:Hkv.
  - rewrite Hg. run_eff. rewrite Hfi. by run_eff.
  - rewrite (collection_local c w Hkv) in Hfi. run_eff. rewrite Hfi. by run_eff.
Qed.

Lemma put_null c w n :
  req_json (req c) = inr JNull →
  kv_get_rejects c = false →
  findIndex (λ t, bool_decide (id t = param_id (req c))) (collection c w) = Z.of_nat n →
  put_api_todos_id c w = (json (Failure ErroAoProcessarRequisicao) 500, w).
Proof.
  intros Hb Hg Hfi. unfold put_api_todos_id. run_eff. rewrite Hb. run_eff.
  rewrite getTasks_eq. unfold kv_get_rejects in Hg.
  destruct (TODO_KV c) as [ns|] eqn:Hkv.
  - rewrite Hg. run_eff. rewrite Hfi, of_nat_neq_minus_one. by run_eff.
  - rewrite (collection_local c w Hkv) in Hfi. run_eff.
    rewrite Hfi, of_nat_neq_minus_one. by run_eff.
Qed.

Lemma delete_unread c w :
  kv_get_rejects c = true →
  delete_api_todos_id c w = (json (Failure ErroAoProcessarRequisicao) 500, w).
Proof.
  intros Hg. unfold delete_api_todos_id. run_eff.
  rewrite getTasks_eq. unfold kv_get_rejects in Hg.
  destruct (TODO_KV c) as [ns|]; [|done]. rewrite Hg. by run_eff.
Qed.

Lemma delete_missing c w :
  kv_get_rejects c = false →
  findIndex (λ t, bool_decide (id t = param_id (req c))) (collection c w) = -1 →
  delete_api_todos_id c w = (json (Failure TarefaNaoEncontrada) 404, w).
Proof.
  intros Hg Hfi. unfold delete_api_todos_id. run_eff.
  rewrite getTasks_eq. unfold kv_get_rejects in Hg.
  destruct (TODO_KV c) as [ns|] eqn:Hkv.
  - rewrite Hg. run_eff. rewrite Hfi. by run_eff.
  - rewrite (collection_local c w Hkv) in Hfi. run_eff. rewrite Hfi. by run_eff.
Qed.

Lemma delete_found c w n t :
  kv_get_rejects c = false →
  findIndex (λ t, bool_decide (id t = param_id (req c))) (collection c w) = Z.of_nat n →
  collection c w !! n = Some t →
  delete_api_todos_id c w =
    if kv_put_rejects c then (json (Failure ErroAoProcessarRequisicao) 500, w)
    else (json (Success (inl t)) 200, persist c (delete n (collection c w)) w).
Proof.
  intros Hg Hfi Ht. unfold delete_api_todos_id. run_eff.
  rewrite getTasks_eq. unfold kv_get_rejects, kv_put_rejects in *.
  destruct (TODO_KV c) as [[gr pr]|] eqn:Hkv.
  - simpl in Hg. subst gr. run_eff. rewrite Hfi, of_nat_neq_minus_one. put_go.
    by destruct pr; put_go.
  - rewrite (collection_local c w Hkv) in *. run_eff.
    rewrite Hfi, of_nat_neq_minus_one. by local_go.
Qed.

Lemma get_eq c w :
  get_api_todos c w =
    if kv_get_rejects c then (json (Failure ErroAoListarTarefas) 500, w)
    else (json (Success (inr (collection c w))) 200, w).
Proof.
  unfold get_api_todos. run_eff. rewrite getTasks_eq. unfold kv_get_rejects.
  destruct (TODO_KV c) as [ns|] eqn:Hkv.
  - by destruct (get_rejects ns); run_eff.
  - run_eff. by rewrite (collection_local c w Hkv).
Qed.

(** The create handler on a body that is not [null]: every way it can end. *)
Lemma post_eq g c w body v :
  req_json (req c) = inr body →
  property body (js "task") = inr v →
  post_api_todos g c w =
    if negb (toBoolean v) || negb (is_type v TString) || is_empty (trim_of v)
    then (json (Failure CampoTaskObrigatorio) 400, w)
    else if kv_get_rejects c || kv_put_rejects c
    then (json (Failure ErroAoProcessarRequisicao) 500, w)
    else
      let newTask := {| id := generateId g; task := trim_of v;
                        completed := false; createdAt := toISOString g |} in
      (json (Success (inl newTask)) 201, persist c (collection c w ++ [newTask]) w).
Proof.
  intros Hb Hv. unfold post_api_todos. run_eff. rewrite Hb. run_eff. rewrite Hv. run_eff.
  destruct (negb (toBoolean v) || negb (is_type v TString) || is_empty (trim_of v));
    run_eff; [done|].
  rewrite getTasks_eq. unfold kv_get_rejects, kv_put_rejects.
  destruct (TODO_KV c) as [[gr pr]|] eqn:Hkv.
  - destruct gr; run_eff; [done|]. put_go. by destruct pr; run_eff.
  - run_eff. local_go. by rewrite (collection_local c w Hkv).
Qed.

Lemma persist_same c w n t :
  collection c w !! n = Some t → persist c (collection c w) w = w.
Proof.
  unfold collection, persist. destruct (TODO_KV c).
  - destruct (kv w !! "tasks") as [l|] eqn:Hl; simpl; [|done].
    intros _. rewrite insert_id by done. by destruct w.
  - intros _. by destruct w.
Qed.

Lemma trim_nonempty s : trim s ≠ [] → s ≠ [].
Proof. by intros H ->. Qed.

(** *** Create *)


(** C4, as it holds for [src/server.ts]: for a body whose [task] is
    absent, is not a string, or is empty once trimmed, the create handler
    answers 400 and leaves the store as it was. *)
Theorem post_rejects_invalid_task g c w body v :
  req_json (req c) = inr body →
  property body (js "task") = inr v →
  v = undefined ∨ typeof v ≠ TString ∨ (∃ s, v = Some (JStr s) ∧ trim s = []) →
  post_api_todos g c w = (json (Failure CampoTaskObrigatorio) 400, w).
Proof.
  intros Hb Hv Hbad. rewrite (post_eq g c w body v Hb Hv).
  replace (negb (toBoolean v) || negb (is_type v TString) || is_empty (trim_of v))
    with true; [done|].
  symmetry. destruct Hbad as [->|[Hty|(s & -> & Hs)]]; [done| |].
  - unfold is_type. rewrite bool_decide_eq_false_2 by done.
    by destruct (toBoolean v).
  - simpl trim_of. rewrite Hs. apply orb_true_r.
Qed.

(** *** Update *)

(** C7: when the store can be read and holds no record with the id of
    the request, the update handler answers 404 and leaves the store as it
    was. *)
Theorem put_unknown_id_not_found c w body :
  req_json (req c) = inr body →
  kv_get_rejects c = false →
  param_id (req c) ∉ id <$> collection c w →
  put_api_todos_id c w = (json (Failure TarefaNaoEncontrada) 404, w).
Proof.
  intros Hb Hg Hid. apply (put_missing c w body Hb Hg).
  by apply findIndex_unknown.
Qed.

(** C10: on a stored record, with a store that answers, an update whose
    body has neither [task] nor [completed] answers 200 with the record as
    it is stored and leaves the store as it was. *)
Theorem put_empty_body_is_identity c w body :
  req_json (req c) = inr body →
  property body (js "task") = inr undefined →
  property body (js "completed") = inr undefined →
  storage_answers c →
  param_id (req c) ∈ id <$> collection c w →
  ∃ t, t ∈ collection c w ∧ id t = param_id (req c)
       ∧ put_api_todos_id c w = (json (Success (inl t)) 200, w).
Proof.
  intros Hb Hvt Hvc [Hg Hp] (n & t & Hfi & Ht & Hid)%findIndex_known.
  exists t. split; [by eapply list_elem_of_lookup_2|]. split; [done|].
  rewrite (put_found c w body _ _ n t Hb Hvt Hvc Hg Hfi Ht), Hp. simpl.
  by rewrite (list_insert_id _ _ _ Ht), (persist_same c w n t Ht).
Qed.

(** C5: an update of a stored record whose body holds [completed: true]
    and no [task] changes nothing but that record's [completed]: the
    record keeps its [id], [task] and [createdAt], every other record of
    the collection stays as it is, and when the store answers the record
    is stored and returned with [completed] set. *)
Theorem put_completed_changes_only_completed c w body :
  req_json (req c) = inr body →
  property body (js "task") = inr undefined →
  property body (js "completed") = inr (Some (JBool true)) →
  param_id (req c) ∈ id <$> collection c w →
  ∃ n t t',
    collection c w !! n = Some t ∧ id t = param_id (req c)
    ∧ collection c (put_api_todos_id c w).2 !! n = Some t'
    ∧ id t' = id t ∧ task t' = task t ∧ createdAt t' = createdAt t
    ∧ (∀ j, j ≠ n →
         collection c (put_api_todos_id c w).2 !! j = collection c w !! j)
    ∧ length (collection c (put_api_todos_id c w).2) = length (collection c w)
    ∧ (storage_answers c →
         completed t' = true
         ∧ (put_api_todos_id c w).1 = json (Success (inl t')) 200).
Proof.
  intros Hb Hvt Hvc (n & t & Hfi & Ht & Hid)%findIndex_known.
  assert (n < length (collection c w))%nat as Hn by by eapply lookup_lt_Some.
  destruct (kv_get_rejects c) eqn:Hg.
  { exists n, t, t. rewrite (put_unread c w body Hb Hg). simpl.
    split_and!; try done. intros [? _]. congruence. }
  rewrite (put_found c w body _ _ n t Hb Hvt Hvc Hg Hfi Ht). simpl.
  destruct (kv_put_rejects c) eqn:Hp.
  { exists n, t, t. simpl. split_and!; try done. intros [_ ?]. congruence. }
  exists n, t, (with_completed true t). simpl. rewrite collection_persist.
  split_and!; try done.
  - by apply list_lookup_insert_eq.
  - intros j Hj. by apply list_lookup_insert_ne.
  - by rewrite length_insert.
Qed.


(** *** Delete *)

Lemma delete_forgets_id (l : list Task) n t :
  NoDup (id <$> l) → l !! n = Some t → id t ∉ id <$> delete n l.
Proof.
  intros Hnd Ht. rewrite list_fmap_delete.
  assert ((id <$> l) !! n = Some (id t)) as Hn by by rewrite list_lookup_fmap, Ht.
  rewrite (delete_Permutation _ _ _ Hn) in Hnd. by apply NoDup_cons in Hnd as [? _].
Qed.

(** C8: when the store answers and holds a record with the id of the
    request, ids being unique in it, the delete handler removes that one
    record (the collection is one shorter), stores the rest and answers
    200 with the removed record; the same request again is answered 404
    and leaves the store as it then is. *)
Theorem delete_removes_one_then_not_found c w :
  storage_answers c →
  NoDup (id <$> collection c w) →
  param_id (req c) ∈ id <$> collection c w →
  ∃ n t,
    collection c w !! n = Some t ∧ id t = param_id (req c)
    ∧ let w' := persist c (delete n (collection c w)) w in
      delete_api_todos_id c w = (json (Success (inl t)) 200, w')
      ∧ collection c w' = delete n (collection c w)
      ∧ S (length (collection c w')) = length (collection c w)
      ∧ delete_api_todos_id c w' = (json (Failure TarefaNaoEncontrada) 404, w').
Proof.
  intros [Hg Hp] Hnd (n & t & Hfi & Ht & Hid)%findIndex_known.
  assert (n < length (collection c w))%nat as Hn by by eapply lookup_lt_Some.
  exists n, t. split; [done|]. split; [done|]. intros w'.
  assert (collection c w' = delete n (collection c w)) as Hw'
    by apply collection_persist.
  split; [|split; [done|split]].
  - by rewrite (delete_found c w n t Hg Hfi Ht), Hp.
  - rewrite Hw', length_delete by done. lia.
  - apply delete_missing; [done|]. apply findIndex_unknown.
    rewrite Hw', <- Hid. by apply delete_forgets_id.
Qed.

Lemma collection_stored c w : collection c w = stored (uses_kv c) w.
Proof. unfold collection, stored, uses_kv. by destruct (TODO_KV c). Qed.

(** *** What a request can do to the store *)

Lemma property_throws body k e : property body k = inl e → body = JNull.
Proof. by destruct body. Qed.

Lemma put_effect c w :
  (put_api_todos_id c w).2 = w
  ∨ ∃ n t t', collection c w !! n = Some t ∧ id t' = id t
              ∧ (put_api_todos_id c w).2 = persist c (<[n := t']> (collection c w)) w.
Proof.
  destruct (req_json (req c)) as [e|body] eqn:Hb.
  { left. by rewrite (put_unparsed c w e Hb). }
  destruct (kv_get_rejects c) eqn:Hg.
  { left. by rewrite (put_unread c w body Hb Hg). }
  destruct (findIndex_cases (λ t, bool_decide (id t = param_id (req c))) (collection c w))
    as [[Hfi _]|(n & t & Hfi & Ht & _)].
  { left. by rewrite (put_missing c w body Hb Hg Hfi). }
  destruct (property body (js "task")) as [e|vt] eqn:Hvt.
  { apply property_throws in Hvt as ->. left. by rewrite (put_null c w n Hb Hg Hfi). }
  destruct (property body (js "completed")) as [e|vc] eqn:Hvc.
  { apply property_throws in Hvc as ->. left. by rewrite (put_null c w n Hb Hg Hfi). }
  rewrite (put_found c w body vt vc n t Hb Hvt Hvc Hg Hfi Ht).
  destruct (negb (is_undefined vt) && _); [by left|]. simpl.
  destruct (negb (is_undefined vc) && _); simpl.
  { destruct (uses_kv c); [by left|]. right. eexists n, t, _. split; [done|].
    split; [|done]. by destruct (is_undefined vt). }
  destruct (kv_put_rejects c); [by left|]. right. eexists n, t, _. split; [done|].
  split; [|done]. by destruct (is_undefined vt), (is_undefined vc).
Qed.

(** Every way a delete request can end. *)
Lemma delete_cases c w :
  (is_success (delete_api_todos_id c w).1 = false ∧ (delete_api_todos_id c w).2 = w)
  ∨ ∃ n t, collection c w !! n = Some t
           ∧ delete_api_todos_id c w
             = (json (Success (inl t)) 200, persist c (delete n (collection c w)) w).
Proof.
  destruct (kv_get_rejects c) eqn:Hg.
  { left. by rewrite (delete_unread c w Hg). }
  destruct (findIndex_cases (λ t, bool_decide (id t = param_id (req c))) (collection c w))
    as [[Hfi _]|(n & t & Hfi & Ht & _)].
  { left. by rewrite (delete_missing c w Hg Hfi). }
  rewrite (delete_found c w n t Hg Hfi Ht).
  destruct (kv_put_rejects c); [by left|]. right. by exists n, t.
Qed.

Lemma stored_persist_cases b c l w :
  stored b (persist c l w) = if bool_decide (b = uses_kv c) then l else stored b w.
Proof.
  unfold stored, persist, uses_kv.
  destruct b, (TODO_KV c); simpl; try done. by rewrite lookup_insert_eq.
Qed.

Lemma NoDup_ids_persist c l w :
  (∀ b, NoDup (id <$> stored b w)) → NoDup (id <$> l) →
  ∀ b, NoDup (id <$> stored b (persist c l w)).
Proof. intros Hw Hl b. rewrite stored_persist_cases. by case_bool_decide. Qed.

Lemma reachable_ids_unique w : reachable w → ∀ b, NoDup (id <$> stored b w).
Proof.
  induction 1 as [|k w Hw IH Hfresh].
  { intros [|]; simpl; [rewrite lookup_empty|]; by apply NoDup_nil. }
  destruct k as [c|g c|c|c]; simpl in *.
  - rewrite get_eq. by destruct (kv_get_rejects c).
  - destruct (post_cases g c w) as [[_ ->]|(t & Hid & ->)]; [done|].
    apply NoDup_ids_persist; [done|]. rewrite fmap_app. apply NoDup_app.
    split; [rewrite collection_stored; apply IH|]. split; [|apply NoDup_singleton].
    intros x Hx [->|[]%elem_of_nil]%elem_of_cons. apply Hfresh. by rewrite <- Hid.
  - destruct (put_effect c w) as [->|(n & t & t' & Ht & Hid & ->)]; [done|].
    apply NoDup_ids_persist; [done|].
    rewrite list_fmap_insert, list_insert_id;
      [rewrite collection_stored; apply IH|].
    by rewrite list_lookup_fmap, Ht, Hid.
  - destruct (delete_cases c w) as [[_ ->]|(n & t & Ht & ->)]; [done|].
    apply NoDup_ids_persist; [done|].
    rewrite list_fmap_delete.
    eapply sublist_NoDup; [|apply sublist_delete].
    rewrite collection_stored. apply IH.
Qed.

(** C3, as it holds for [src/server.ts]: in every store that requests
    lead to from the empty one, each create having been handed an id that
    is not yet in the collection it appends to, no two records of a
    collection have the same id. *)
Theorem reachable_ids_are_unique w c :
  reachable w → NoDup (id <$> collection c w).
Proof. intros Hw. rewrite collection_stored. by apply reachable_ids_unique. Qed.

(** *** Error responses and the store *)

Lemma post_error_leaves_store g c w :
  is_success (post_api_todos g c w).1 = false → (post_api_todos g c w).2 = w.
Proof. by destruct (post_cases g c w) as [[_ ->]|(t & _ & ->)]. Qed.

Lemma delete_error_leaves_store c w :
  is_success (delete_api_todos_id c w).1 = false → (delete_api_todos_id c w).2 = w.
Proof. by destruct (delete_cases c w) as [[_ ->]|(n & t & _ & ->)]. Qed.

(** With the KV binding the array that the update handler writes to is a
    copy, and a rejected update leaves the store as it was. *)
Lemma put_error_leaves_kv_store c w :
  uses_kv c = true →
  is_success (put_api_todos_id c w).1 = false → (put_api_todos_id c w).2 = w.
Proof.
  intros Hkv.
  destruct (req_json (req c)) as [e|body] eqn:Hb.
  { by rewrite (put_unparsed c w e Hb). }
  destruct (kv_get_rejects c) eqn:Hg.
  { by rewrite (put_unread c w body Hb Hg). }
  destruct (findIndex_cases (λ t, bool_decide (id t = param_id (req c))) (collection c w))
    as [[Hfi _]|(n & t & Hfi & Ht & _)].
  { by rewrite (put_missing c w body Hb Hg Hfi). }
  destruct (property body (js "task")) as [e|vt] eqn:Hvt.
  { apply property_throws in Hvt as ->. by rewrite (put_null c w n Hb Hg Hfi). }
  destruct (property body (js "completed")) as [e|vc] eqn:Hvc.
  { apply property_throws in Hvc as ->. by rewrite (put_null c w n Hb Hg Hfi). }
  rewrite (put_found c w body vt vc n t Hb Hvt Hvc Hg Hfi Ht), Hkv.
  destruct (negb (is_undefined vt) && _); [done|]. simpl.
  destruct (negb (is_undefined vc) && _); [done|].
  by destruct (kv_put_rejects c).
Qed.

(** C2 at the failing request: in a local run, an update whose [task] is
    valid and whose [completed] is not a boolean is answered 400, yet the
    list handler, which returned the record with its old [task] before,
    returns it with the new one after. *)
Theorem put_rejected_after_writing_task :
  let t := {| id := js "a"; task := js "old"; completed := false;
              createdAt := js "2024-05-01T10:00:00.000Z" |} in
  let w := {| localTasks := [t]; kv := ∅ |} in
  let body := JObj [(js "task", JStr (js "new")); (js "completed", JStr (js "yes"))] in
  let c := {| TODO_KV := None; req := {| param_id := js "a"; req_json := inr body |} |} in
  (put_api_todos_id c w).1 = json (Failure CampoCompletedInvalido) 400
  ∧ (get_api_todos c w).1 = json (Success (inr [t])) 200
  ∧ (get_api_todos c (put_api_todos_id c w).2).1
    = json (Success (inr [with_task (js "new") t])) 200
  ∧ (put_api_todos_id c w).2 ≠ w.
Proof. by vm_compute. Qed.

(** *** Listing after creates and deletes *)

Lemma successful_cons sel k r calls rs :
  successful sel (k :: calls) (r :: rs)
  = (if sel k && is_success r then [(k, r)] else []) ++ successful sel calls rs.
Proof.
  unfold successful. simpl zip. rewrite filter_cons. simpl.
  case_decide as H; [by rewrite H|].
  apply not_true_is_false in H. by rewrite H.
Qed.

Lemma returned_by_cons sel k r calls rs :
  returned_by sel (k :: calls) (r :: rs)
  = (if sel k && is_success r then option_list (returned_task r) else [])
    ++ returned_by sel calls rs.
Proof.
  unfold returned_by. rewrite successful_cons.
  destruct (sel k && is_success r); [|done]. simpl.
  by destruct (returned_task r).
Qed.

Lemma stored_empty b : stored b empty_world = [].
Proof. destruct b; [|done]. unfold stored. simpl. by rewrite lookup_empty. Qed.

Lemma run_creates_deletes b calls : ∀ w0 rs w,
  run calls w0 = (rs, w) →
  Forall (λ k, is_create k || is_delete k = true ∧ uses_kv (context k) = b) calls →
  stored b w `sublist_of` stored b w0 ++ returned_by is_create calls rs
  ∧ stored b w0 ++ returned_by is_create calls rs
    ≡ₚ stored b w ++ returned_by is_delete calls rs
  ∧ length (returned_by is_create calls rs) = length (successful is_create calls rs)
  ∧ length (returned_by is_delete calls rs) = length (successful is_delete calls rs).
Proof.
  induction calls as [|k calls IH]; intros w0 rs w Hrun Hall.
  { injection Hrun as <- <-. unfold returned_by, successful. simpl.
    by rewrite app_nil_r. }
  simpl in Hrun. destruct (handle k w0) as [r w1] eqn:Hk.
  destruct (run calls w1) as [rs' w2] eqn:Hrest. injection Hrun as <- <-.
  apply Forall_cons in Hall as [[Hsel Hb] Hall].
  destruct (IH w1 rs' w2 Hrest Hall) as (Hsub & Hperm & Hn & Hm).
  rewrite !returned_by_cons, !successful_cons.
  destruct k as [c|g c|c|c]; simpl in Hsel, Hb, Hk; try done; simpl.
  - destruct (post_cases g c w0) as [[Hfail Hsame]|(t & _ & Heq)];
      rewrite Hk in *; simpl in *.
    + subst w1. by rewrite Hfail.
    + injection Heq as -> ->. simpl.
      rewrite stored_persist_cases, bool_decide_eq_true_2, collection_stored, Hb in *
        by done.
      rewrite <- app_assoc in Hsub, Hperm. simpl in Hsub, Hperm.
      split_and!; try done; simpl; by f_equal.
  - destruct (delete_cases c w0) as [[Hfail Hsame]|(n & t & Ht & Heq)];
      rewrite Hk in *; simpl in *.
    + subst w1. by rewrite Hfail.
    + injection Heq as -> ->. simpl.
      rewrite stored_persist_cases, bool_decide_eq_true_2, collection_stored, Hb in *
        by done.
      split_and!; try done; simpl; [| |by f_equal].
      * etrans; [exact Hsub|]. apply sublist_app; [apply sublist_delete|done].
      * rewrite <- Permutation_middle, <- Hperm.
        by rewrite (delete_Permutation _ _ _ Ht) at 1.
Qed.

(** C9: after any sequence of create and delete requests served by one
    backend from the empty store, of which N creates and M deletes were
    answered with success, the collection has N - M records; it holds the
    records the creates returned, in the order of their creation, without
    the ones the deletes returned; and the list handler returns exactly
    this collection. *)
Theorem list_after_creates_and_deletes b calls rs w :
  run calls empty_world = (rs, w) →
  Forall (λ k, is_create k || is_delete k = true ∧ uses_kv (context k) = b) calls →
  let N := length (successful is_create calls rs) in
  let M := length (successful is_delete calls rs) in
  let created := returned_by is_create calls rs in
  let deleted := returned_by is_delete calls rs in
  length (stored b w) = (N - M)%nat
  ∧ stored b w `sublist_of` created
  ∧ created ≡ₚ stored b w ++ deleted
  ∧ ∀ c, uses_kv c = b → kv_get_rejects c = false →
         get_api_todos c w = (json (Success (inr (stored b w))) 200, w).
Proof.
  intros Hrun Hall N M created deleted. subst N M created deleted.
  destruct (run_creates_deletes b calls _ _ _ Hrun Hall) as (Hsub & Hperm & Hn & Hm).
  rewrite stored_empty in Hsub, Hperm. simpl in Hsub, Hperm.
  split_and!; try done.
  - apply Permutation_length in Hperm. rewrite length_app in Hperm.
    rewrite <- Hn, <- Hm. lia.
  - intros c Hc Hg. by rewrite get_eq, Hg, collection_stored, Hc.
Qed.

End Server_facts.

(** ** The theorems at work on sample requests *)

Section Server_examples.
Import Server Sample.


(** A create whose [task] is the number 123. *)
Lemma post_rejects_invalid_task_witness :
  let body := JObj [(js "task", JNum 123)] in
  typeof (Some (JNum 123)) ≠ TString
  ∧ post_api_todos host1 (local (request [] body)) local_store
    = (json (Failure CampoTaskObrigatorio) 400, local_store).
Proof.
  intros body.
  assert (typeof (Some (JNum 123)) ≠ TString) as Hty by done.
  split; [done|].
  exact (post_rejects_invalid_task host1 (local (request [] body)) local_store body
           (Some (JNum 123)) eq_refl eq_refl (or_intror (or_introl Hty))).
Defined.

(** An update for an id that no stored record has. *)
Lemma put_unknown_id_not_found_witness :
  let c := production (request (js "no-such-id") only_completed) in
  (param_id (req c) ∉ id <$> collection c kv_store)
  ∧ put_api_todos_id c kv_store = (json (Failure TarefaNaoEncontrada) 404, kv_store).
Proof.
  intros c.
  assert (param_id (req c) ∉ id <$> collection c kv_store) as Hid.
  { vm_compute. intros H. repeat (apply elem_of_cons in H as [H|H]; [done|]).
    by apply elem_of_nil in H. }
  split; [done|].
  exact (put_unknown_id_not_found c kv_store only_completed eq_refl eq_refl Hid).
Defined.

(** An update of the second record with the body [{}]. *)
Lemma put_empty_body_is_identity_witness :
  let c := production (request (id dog) empty_object) in
  param_id (req c) ∈ id <$> collection c kv_store
  ∧ ∃ t, t ∈ collection c kv_store ∧ id t = param_id (req c)
         ∧ put_api_todos_id c kv_store = (json (Success (inl t)) 200, kv_store).
Proof.
  intros c.
  assert (param_id (req c) ∈ id <$> collection c kv_store) as Hid.
  { vm_compute. right. by left. }
  split; [done|].
  exact (put_empty_body_is_identity c kv_store empty_object eq_refl eq_refl eq_refl
           (conj eq_refl eq_refl) Hid).
Defined.

(** An update of the first record of a local run with [{ completed: true }]. *)
Lemma put_completed_changes_only_completed_witness :
  let c := local (request (id milk) only_completed) in
  param_id (req c) ∈ id <$> collection c local_store
  ∧ ∃ n t t',
      collection c local_store !! n = Some t ∧ id t = param_id (req c)
      ∧ collection c (put_api_todos_id c local_store).2 !! n = Some t'
      ∧ id t' = id t ∧ task t' = task t ∧ createdAt t' = createdAt t
      ∧ (∀ j, j ≠ n →
           collection c (put_api_todos_id c local_store).2 !! j
           = collection c local_store !! j)
      ∧ length (collection c (put_api_todos_id c local_store).2)
        = length (collection c local_store)
      ∧ (storage_answers c →
           completed t' = true
           ∧ (put_api_todos_id c local_store).1 = json (Success (inl t')) 200).
Proof.
  intros c.
  assert (param_id (req c) ∈ id <$> collection c local_store) as Hid.
  { vm_compute. by left. }
  split; [done|].
  exact (put_completed_changes_only_completed c local_store only_completed
           eq_refl eq_refl eq_refl Hid).
Defined.


(** The delete of the first of two records, twice. *)
Lemma delete_removes_one_then_not_found_witness :
  let c := production (request (id milk) JNull) in
  storage_answers c
  ∧ NoDup (id <$> collection c kv_store)
  ∧ param_id (req c) ∈ id <$> collection c kv_store
  ∧ ∃ n t,
      collection c kv_store !! n = Some t ∧ id t = param_id (req c)
      ∧ let w' := persist c (delete n (collection c kv_store)) kv_store in
        delete_api_todos_id c kv_store = (json (Success (inl t)) 200, w')
        ∧ collection c w' = delete n (collection c kv_store)
        ∧ S (length (collection c w')) = length (collection c kv_store)
        ∧ delete_api_todos_id c w' = (json (Failure TarefaNaoEncontrada) 404, w').
Proof.
  intros c.
  assert (storage_answers c) as Hs by by split.
  assert (NoDup (id <$> collection c kv_store)) as Hnd.
  { refine (bool_decide_unpack _ _). by vm_compute. }
  assert (param_id (req c) ∈ id <$> collection c kv_store) as Hid.
  { vm_compute. by left. }
  split; [done|]. split; [done|]. split; [done|].
  exact (delete_removes_one_then_not_found c kv_store Hs Hnd Hid).
Defined.

(** The store after two creates, an update of the first record and a
    third create, in production: three records with three ids. *)
Lemma reachable_ids_are_unique_witness :
  let c := production (request [] buy_milk) in
  let w1 := (handle (Create host1 c) empty_world).2 in
  let w2 := (handle (Create host2 (production (request [] walk_dog))) w1).2 in
  let w3 := (handle (Update (production (request (id milk) only_completed))) w2).2 in
  let w := (handle (Create host3 c) w3).2 in
  reachable w
  ∧ collection c w = [with_completed true milk; dog; milk3]
  ∧ id <$> collection c w = [randomUUID host1; randomUUID host2; randomUUID host3]
  ∧ NoDup (id <$> collection c w).
Proof.
  intros c w1 w2 w3 w.
  assert (reachable w) as Hw.
  { apply reachable_step; [apply reachable_step; [apply reachable_step;
      [apply reachable_step; [apply reachable_empty|]|]|]|].
    - apply (bool_decide_unpack _). by vm_compute.
    - apply (bool_decide_unpack _). by vm_compute.
    - exact I.
    - apply (bool_decide_unpack _). by vm_compute. }
  split; [done|]. split; [by vm_compute|]. split; [by vm_compute|].
  exact (reachable_ids_are_unique w c Hw).
Defined.

(** Two creates and one delete: one record is left, the second one. *)
Lemma list_after_creates_and_deletes_witness :
  let rs := (run session empty_world).1 in
  let w := (run session empty_world).2 in
  Forall (λ k, is_create k || is_delete k = true ∧ uses_kv (context k) = true) session
  ∧ length (successful is_create session rs) = 2%nat
  ∧ length (successful is_delete session rs) = 1%nat
  ∧ stored true w = [dog]
  ∧ length (stored true w)
    = (length (successful is_create session rs)
       - length (successful is_delete session rs))%nat
  ∧ stored true w `sublist_of` returned_by is_create session rs
  ∧ returned_by is_create session rs ≡ₚ stored true w ++ returned_by is_delete session rs
  ∧ ∀ c, uses_kv c = true → kv_get_rejects c = false →
         get_api_todos c w = (json (Success (inr (stored true w))) 200, w).
Proof.
  intros rs w.
  assert (Forall (λ k, is_create k || is_delete k = true ∧ uses_kv (context k) = true)
                 session) as Hall by (repeat constructor).
  assert (run session empty_world = (rs, w)) as Hrun by apply surjective_pairing.
  split; [done|]. split; [by vm_compute|]. split; [by vm_compute|].
  split; [by vm_compute|].
  exact (list_after_creates_and_deletes true session rs w Hrun Hall).
Defined.

End Server_examples.

(** ** More about the handlers of [src/server.ts] *)

Section Server_more.
Import Server.

(** *** [trim] *)

Lemma trimStart_app_last (l : jsstring) u :
  isWhiteSpace u = false → trimStart (l ++ [u]) = trimStart l ++ [u].
Proof.
  intros Hu. induction l as [|a l IH]; simpl; [by rewrite Hu|].
  by destruct (isWhiteSpace a).
Qed.

Lemma trimStart_cases (s : jsstring) :
  trimStart s = [] ∨ ∃ u r, trimStart s = u :: r ∧ isWhiteSpace u = false.
Proof.
  induction s as [|a s IH]; simpl; [by left|].
  destruct (isWhiteSpace a) eqn:Ha; [done|]. right. by exists a, s.
Qed.

Lemma trimEnd_cons (u : N) (r : jsstring) :
  isWhiteSpace u = false → trimEnd (u :: r) = u :: trimEnd r.
Proof.
  intros Hu. unfold trimEnd. simpl rev.
  by rewrite trimStart_app_last, rev_app_distr.
Qed.

Lemma trimEnd_trimEnd (s : jsstring) : trimEnd (trimEnd s) = trimEnd s.
Proof.
  unfold trimEnd. rewrite rev_involutive.
  destruct (trimStart_cases (rev s)) as [->|(u & r & -> & Hu)]; [done|].
  simpl. by rewrite Hu.
Qed.

Lemma trim_trim (s : jsstring) : trim (trim s) = trim s.
Proof.
  unfold trim.
  destruct (trimStart_cases s) as [->|(u & r & -> & Hu)]; [done|].
  rewrite (trimEnd_cons u r Hu). simpl. rewrite Hu.
  by rewrite <- (trimEnd_cons u r Hu), trimEnd_trimEnd.
Qed.

(** *** What an update can change *)

Lemma valid_task_is_trimmed (v : JSValue) :
  negb (is_type v TString) || is_empty (trim_of v) = false →
  trim_of v ≠ [] ∧ trim (trim_of v) = trim_of v.
Proof.
  intros [_ Hne]%orb_false_elim. split; [by destruct (trim_of v)|].
  destruct v as [[| | |s| |]|]; simpl; try done. apply trim_trim.
Qed.

Lemma put_outcomes c w :
  (put_api_todos_id c w).2 = w
  ∨ ∃ n t t',
      collection c w !! n = Some t
      ∧ id t' = id t ∧ createdAt t' = createdAt t
      ∧ (task t' = task t ∨ tidy t')
      ∧ (put_api_todos_id c w).2 = persist c (<[n := t']> (collection c w)) w.
Proof.
  destruct (req_json (req c)) as [e|body] eqn:Hb.
  { left. by rewrite (put_unparsed c w e Hb). }
  destruct (kv_get_rejects c) eqn:Hg.
  { left. by rewrite (put_unread c w body Hb Hg). }
  destruct (findIndex_cases (λ t, bool_decide (id t = param_id (req c))) (collection c w))
    as [[Hfi _]|(n & t & Hfi & Ht & _)].
  { left. by rewrite (put_missing c w body Hb Hg Hfi). }
  destruct (property body (js "task")) as [e|vt] eqn:Hvt.
  { apply property_throws in Hvt as ->. left. by rewrite (put_null c w n Hb Hg Hfi). }
  destruct (property body (js "completed")) as [e|vc] eqn:Hvc.
  { apply property_throws in Hvc as ->. left. by rewrite (put_null c w n Hb Hg Hfi). }
  rewrite (put_found c w body vt vc n t Hb Hvt Hvc Hg Hfi Ht).
  destruct (is_undefined vt) eqn:Hut; simpl.
  - destruct (negb (is_undefined vc) && _); simpl.
    { destruct (uses_kv c); [by left|]. right. exists n, t, t. by split_and!; try left. }
    destruct (kv_put_rejects c); [by left|]. right. eexists n, t, _.
    split_and!; [done| | | |done]; destruct (is_undefined vc); try done; by left.
  - destruct (negb (is_type vt TString) || is_empty (trim_of vt)) eqn:Hok; [by left|].
    apply valid_task_is_trimmed in Hok. simpl.
    destruct (negb (is_undefined vc) && _); simpl.
    { destruct (uses_kv c); [by left|]. right. eexists n, t, _.
      split_and!; [done| | | |done]; try done. by right. }
    destruct (kv_put_rejects c); [by left|]. right. eexists n, t, _.
    split_and!; [done| | | |done]; destruct (is_undefined vc); try done; by right.
Qed.

(** An update, whatever its body and however it ends, neither adds nor
    removes a record and changes no record's [id] or [createdAt]. *)
Theorem put_keeps_records_identity c w :
  length (collection c (put_api_todos_id c w).2) = length (collection c w)
  ∧ id <$> collection c (put_api_todos_id c w).2 = id <$> collection c w
  ∧ createdAt <$> collection c (put_api_todos_id c w).2 = createdAt <$> collection c w.
Proof.
  destruct (put_outcomes c w) as [->|(n & t & t' & Ht & Hid & Hat & _ & ->)]; [done|].
  rewrite collection_persist, length_insert, !list_fmap_insert.
  split; [done|]. split; apply list_insert_id; by rewrite list_lookup_fmap, Ht, ?Hid, ?Hat.
Qed.

(** *** Requests and the two stores *)

Lemma handle_effect k w :
  (handle k w).2 = w ∨ ∃ l, (handle k w).2 = persist (context k) l w.
Proof.
  destruct k as [c|g c|c|c]; simpl.
  - left. rewrite get_eq. by destruct (kv_get_rejects c).
  - destruct (post_cases g c w) as [[_ ->]|(t & _ & ->)]; [by left|right; by eexists].
  - destruct (put_outcomes c w) as [->|(n & t & t' & _ & _ & _ & _ & ->)];
      [by left|right; by eexists].
  - destruct (delete_cases c w) as [[_ ->]|(n & t & _ & ->)]; [by left|right; by eexists].
Qed.

(** A request served with the KV binding never touches the in-memory
    list, and a request of a local run never touches the KV namespace. *)
Theorem request_touches_one_store k w :
  if uses_kv (context k) then localTasks (handle k w).2 = localTasks w
  else kv (handle k w).2 = kv w.
Proof.
  destruct (handle_effect k w) as [->|[l ->]]; [by destruct (uses_kv _)|].
  unfold uses_kv, persist. by destruct (TODO_KV (context k)).
Qed.

(** The list handler leaves the store as it is; it answers 200 with the
    whole collection, in stored order, when the store can be read, and 500
    otherwise. *)
Theorem get_lists_without_writing c w :
  (get_api_todos c w).2 = w
  ∧ (get_api_todos c w).1
    = if kv_get_rejects c then json (Failure ErroAoListarTarefas) 500
      else json (Success (inr (collection c w))) 200.
Proof. rewrite get_eq. by destruct (kv_get_rejects c). Qed.

(** While a call to the KV binding rejects, no request changes anything
    in the store, whatever it asks for. *)
Theorem rejecting_storage_changes_nothing k w :
  kv_get_rejects (context k) = true ∨ kv_put_rejects (context k) = true →
  (handle k w).2 = w.
Proof.
  intros Hrej.
  assert (uses_kv (context k) = true) as Hkv.
  { unfold kv_get_rejects, kv_put_rejects, uses_kv in *.
    destruct (TODO_KV (context k)); [done|]. by destruct Hrej. }
  destruct k as [c|g c|c|c]; simpl in *.
  - rewrite get_eq. by destruct (kv_get_rejects c).
  - destruct (req_json (req c)) as [e|body] eqn:Hb.
    { apply post_error_leaves_store. unfold post_api_todos. run_eff. rewrite Hb.
      by run_eff. }
    destruct (property body (js "task")) as [e|v] eqn:Hv.
    { apply post_error_leaves_store. unfold post_api_todos. run_eff. rewrite Hb.
      run_eff. rewrite Hv. by run_eff. }
    rewrite (post_eq g c w body v Hb Hv).
    destruct (negb (toBoolean v) || _ || _); [done|].
    by destruct Hrej as [-> | ->]; rewrite ?orb_true_r.
  - destruct (req_json (req c)) as [e|body] eqn:Hb.
    { by rewrite (put_unparsed c w e Hb). }
    destruct (kv_get_rejects c) eqn:Hg.
    { by rewrite (put_unread c w body Hb Hg). }
    destruct Hrej as [?|Hp]; [done|].
    destruct (findIndex_cases (λ t, bool_decide (id t = param_id (req c))) (collection c w))
      as [[Hfi _]|(n & t & Hfi & Ht & _)].
    { by rewrite (put_missing c w body Hb Hg Hfi). }
    destruct (property body (js "task")) as [e|vt] eqn:Hvt.
    { apply property_throws in Hvt as ->. by rewrite (put_null c w n Hb Hg Hfi). }
    destruct (property body (js "completed")) as [e|vc] eqn:Hvc.
    { apply property_throws in Hvc as ->. by rewrite (put_null c w n Hb Hg Hfi). }
    rewrite (put_found c w body vt vc n t Hb Hvt Hvc Hg Hfi Ht), Hkv, Hp.
    destruct (negb (is_undefined vt) && _); [done|]. simpl.
    by destruct (negb (is_undefined vc) && _).
  - destruct (kv_get_rejects c) eqn:Hg.
    { by rewrite (delete_unread c w Hg). }
    destruct Hrej as [?|Hp]; [done|].
    destruct (findIndex_cases (λ t, bool_decide (id t = param_id (req c))) (collection c w))
      as [[Hfi _]|(n & t & Hfi & Ht & _)].
    { by rewrite (delete_missing c w Hg Hfi). }
    by rewrite (delete_found c w n t Hg Hfi Ht), Hp.
Qed.

(** A create whose body cannot be parsed, or is [null], is answered 500
    with the general message and stores nothing. *)
Theorem post_unreadable_body g c w :
  (∃ e, req_json (req c) = inl e) ∨ req_json (req c) = inr JNull →
  post_api_todos g c w = (json (Failure ErroAoProcessarRequisicao) 500, w).
Proof.
  intros [[e Hb]|Hb]; unfold post_api_todos; run_eff; rewrite Hb; by run_eff.
Qed.

(** *** Create, then delete *)

Lemma post_stores g c w body s :
  req_json (req c) = inr body →
  property body (js "task") = inr (Some (JStr s)) →
  trim s ≠ [] →
  storage_answers c →
  post_api_todos g c w
  = (json (Success (inl {| id := randomUUID g; task := trim s; completed := false;
                           createdAt := toISOString g |})) 201,
     persist c (collection c w
                ++ [{| id := randomUUID g; task := trim s; completed := false;
                       createdAt := toISOString g |}]) w).
Proof.
  intros Hb Hv Hs [Hg Hp].
  assert (toBoolean (Some (JStr s)) = true) as Htrue
    by (apply trim_nonempty in Hs; by destruct s).
  assert (is_empty (trim s) = false) as Hne by by destruct (trim s).
  rewrite (post_eq g c w body _ Hb Hv), Hg, Hp, Htrue. simpl trim_of.
  by rewrite Hne.
Qed.

(** Deleting the record that a create has just added, under the id the
    create answered with, returns that record and gives back the collection
    as it was before the create; the id has to be new to the collection. *)
Theorem post_then_delete_restores g c c' w body s :
  req_json (req c) = inr body →
  property body (js "task") = inr (Some (JStr s)) →
  trim s ≠ [] →
  storage_answers c → storage_answers c' →
  uses_kv c' = uses_kv c →
  param_id (req c') = randomUUID g →
  randomUUID g ∉ id <$> collection c w →
  ∃ t, (post_api_todos g c w).1 = json (Success (inl t)) 201
       ∧ (delete_api_todos_id c' (post_api_todos g c w).2).1 = json (Success (inl t)) 200
       ∧ collection c (delete_api_todos_id c' (post_api_todos g c w).2).2
         = collection c w.
Proof.
  intros Hb Hv Hs Hc [Hg' Hp'] Hkv Hid Hfresh.
  rewrite (post_stores g c w body s Hb Hv Hs Hc). simpl.
  set (t := {| id := randomUUID g; task := trim s; completed := false;
               createdAt := toISOString g |}).
  set (w1 := persist c (collection c w ++ [t]) w).
  assert (collection c' w1 = collection c w ++ [t]) as Hw1.
  { subst w1. by rewrite collection_stored, Hkv, <- collection_stored, collection_persist. }
  assert (collection c' w1 !! length (collection c w) = Some t) as Ht.
  { rewrite Hw1. by apply list_lookup_middle. }
  assert (findIndex (λ t, bool_decide (id t = param_id (req c'))) (collection c' w1)
          = Z.of_nat (length (collection c w))) as Hfi.
  { apply (findIndex_first _ _ _ t Ht); [by apply bool_decide_eq_true_2|].
    intros m t' Hm Ht'. apply bool_decide_eq_false_2. intros Heq.
    rewrite Hw1, lookup_app_l in Ht' by done.
    apply Hfresh. rewrite <- Hid, <- Heq.
    apply list_elem_of_fmap_2. by eapply list_elem_of_lookup_2. }
  exists t. split; [done|].
  rewrite (delete_found c' w1 _ t Hg' Hfi Ht), Hp'. simpl. split; [done|].
  rewrite collection_stored, <- Hkv, <- collection_stored, collection_persist, Hw1.
  rewrite (delete_middle _ [] t). apply app_nil_r.
Qed.

(** *** The same update, twice *)

Lemma findIndex_from_same_ids (i : jsstring) (l1 : list Task) : ∀ (l2 : list Task) k,
  id <$> l1 = id <$> l2 →
  findIndex_from (λ t, bool_decide (id t = i)) l1 k
  = findIndex_from (λ t, bool_decide (id t = i)) l2 k.
Proof.
  induction l1 as [|a l1 IH]; intros [|b l2] k Hids; try done.
  simpl in *. injection Hids as Hab Hrest. rewrite Hab.
  destruct (bool_decide (id b = i)); [done|]. by apply IH.
Qed.

Lemma findIndex_insert_same_id (i : jsstring) (l : list Task) n t t' :
  l !! n = Some t → id t' = id t →
  findIndex (λ t, bool_decide (id t = i)) (<[n := t']> l)
  = findIndex (λ t, bool_decide (id t = i)) l.
Proof.
  intros Ht Hid. apply findIndex_from_same_ids.
  rewrite list_fmap_insert. apply list_insert_id. by rewrite list_lookup_fmap, Ht, Hid.
Qed.

Lemma persist_persist c l l' w : persist c l (persist c l' w) = persist c l w.
Proof.
  unfold persist. destruct (TODO_KV c); [|done].
  unfold set_kv. simpl. by rewrite insert_insert_eq.
Qed.

(** Sending an update a second time changes nothing more: the answer and
    the store are those of the first time. *)
Theorem put_twice_is_put_once c w :
  put_api_todos_id c (put_api_todos_id c w).2 = put_api_todos_id c w.
Proof.
  destruct (req_json (req c)) as [e|body] eqn:Hb.
  { by rewrite !(put_unparsed c _ e Hb). }
  destruct (kv_get_rejects c) eqn:Hg.
  { by rewrite !(put_unread c _ body Hb Hg). }
  destruct (findIndex_cases (λ t, bool_decide (id t = param_id (req c))) (collection c w))
    as [[Hfi _]|(n & t & Hfi & Ht & _)].
  { rewrite (put_missing c w body Hb Hg Hfi). simpl.
    by rewrite (put_missing c w body Hb Hg Hfi). }
  destruct (property body (js "task")) as [e|vt] eqn:Hvt.
  { apply property_throws in Hvt as ->. rewrite (put_null c w n Hb Hg Hfi). simpl.
    by rewrite (put_null c w n Hb Hg Hfi). }
  destruct (property body (js "completed")) as [e|vc] eqn:Hvc.
  { apply property_throws in Hvc as ->. rewrite (put_null c w n Hb Hg Hfi). simpl.
    by rewrite (put_null c w n Hb Hg Hfi). }
  assert (∀ t', id t' = id t →
            findIndex (λ t, bool_decide (id t = param_id (req c)))
                      (collection c (persist c (<[n := t']> (collection c w)) w))
            = Z.of_nat n) as Hfi'.
  { intros t' Hid. rewrite collection_persist.
    by rewrite (findIndex_insert_same_id _ _ n t t'). }
  assert (∀ t', collection c (persist c (<[n := t']> (collection c w)) w) !! n = Some t')
    as Ht'.
  { intros t'. rewrite collection_persist. apply list_lookup_insert_eq.
    by eapply lookup_lt_Some. }
  pose proof (λ t' Hid, put_found c _ body vt vc n t' Hb Hvt Hvc Hg (Hfi' t' Hid) (Ht' t'))
    as Hagain.
  pose proof (put_found c w body vt vc n t Hb Hvt Hvc Hg Hfi Ht) as Hfirst.
  destruct (negb (is_undefined vt) && (negb (is_type vt TString) || is_empty (trim_of vt)))
    eqn:Htask.
  { rewrite Hfirst. simpl. by rewrite Hfirst. }
  simpl in Hfirst.
  destruct (negb (is_undefined vc) && negb (is_type vc TBoolean)) eqn:Hcompleted.
  { rewrite Hfirst. simpl. destruct (uses_kv c) eqn:Hkv.
    - by rewrite Hfirst.
    - rewrite Hagain by (by destruct (is_undefined vt)). simpl.
      rewrite collection_persist, list_insert_insert_eq, persist_persist.
      by destruct (is_undefined vt), t. }
  destruct (kv_put_rejects c) eqn:Hp.
  { rewrite Hfirst. simpl. by rewrite Hfirst. }
  rewrite Hfirst. simpl.
  rewrite Hagain by (by destruct (is_undefined vt), (is_undefined vc)). simpl.
  rewrite collection_persist, list_insert_insert_eq, persist_persist.
  by destruct (is_undefined vt), (is_undefined vc), t.
Qed.

(** *** What every stored record looks like *)

Lemma post_outcomes g c w :
  (post_api_todos g c w).2 = w
  ∨ ∃ t, tidy t ∧ completed t = false
         ∧ (post_api_todos g c w).2 = persist c (collection c w ++ [t]) w.
Proof.
  destruct (req_json (req c)) as [e|body] eqn:Hb.
  { left. unfold post_api_todos. run_eff. rewrite Hb. by run_eff. }
  destruct (property body (js "task")) as [e|v] eqn:Hv.
  { left. unfold post_api_todos. run_eff. rewrite Hb. run_eff. rewrite Hv. by run_eff. }
  rewrite (post_eq g c w body v Hb Hv).
  destruct (negb (toBoolean v) || negb (is_type v TString) || is_empty (trim_of v))
    eqn:Hbad; [by left|].
  destruct (kv_get_rejects c || kv_put_rejects c); [by left|].
  right. eexists. split; [|split; [|reflexivity]]; [|done].
  apply valid_task_is_trimmed.
  apply orb_false_elim in Hbad as [[_ Hty]%orb_false_elim Hne].
  by rewrite Hty, Hne.
Qed.

Lemma tidy_stored_persist c l w :
  (∀ b, Forall tidy (stored b w)) → Forall tidy l →
  ∀ b, Forall tidy (stored b (persist c l w)).
Proof. intros Hw Hl b. rewrite stored_persist_cases. by case_bool_decide. Qed.

(** In every store that requests lead to from the empty one, whatever the
    requests and however they end, each record's [task] is a non-empty
    string without white space at its ends. *)
Theorem obtainable_tasks_are_tidy w c :
  obtainable w → Forall tidy (collection c w).
Proof.
  intros Hw. rewrite collection_stored. generalize (uses_kv c). clear c.
  induction Hw as [|k w Hw IH].
  { intros b. by rewrite stored_empty. }
  destruct k as [c|g c|c|c]; simpl.
  - rewrite get_eq. by destruct (kv_get_rejects c).
  - destruct (post_outcomes g c w) as [->|(t & Ht & _ & ->)]; [done|].
    apply tidy_stored_persist; [done|]. apply Forall_app. split.
    + rewrite collection_stored. apply IH.
    + by apply Forall_singleton.
  - destruct (put_outcomes c w) as [->|(n & t & t' & Ht & _ & _ & Htask & ->)]; [done|].
    apply tidy_stored_persist; [done|]. apply Forall_insert.
    + rewrite collection_stored. apply IH.
    + destruct Htask as [Hsame|?]; [|done].
      assert (tidy t) as Htidy.
      { eapply Forall_lookup_1; [|exact Ht]. rewrite collection_stored. apply IH. }
      unfold tidy in *. by rewrite Hsame.
  - destruct (delete_cases c w) as [[_ ->]|(n & t & _ & ->)]; [done|].
    apply tidy_stored_persist; [done|]. apply Forall_delete.
    rewrite collection_stored. apply IH.
Qed.

(** *** The theorems above on sample requests *)

(** A create in production while the write rejects. *)
Lemma rejecting_storage_changes_nothing_witness :
  let ns := {| get_rejects := false; put_rejects := true |} in
  let k := Create Sample.host1
             {| TODO_KV := Some ns; req := Sample.request [] Sample.buy_milk |} in
  kv_put_rejects (context k) = true ∧ (handle k Sample.kv_store).2 = Sample.kv_store.
Proof.
  intros ns k. split; [done|].
  exact (rejecting_storage_changes_nothing k Sample.kv_store (or_intror eq_refl)).
Defined.

(** A create whose body is [null]. *)
Lemma post_unreadable_body_witness :
  post_api_todos Sample.host1 (Sample.local (Sample.request [] JNull)) Sample.local_store
  = (json (Failure ErroAoProcessarRequisicao) 500, Sample.local_store).
Proof.
  exact (post_unreadable_body Sample.host1 (Sample.local (Sample.request [] JNull))
           Sample.local_store (or_intror eq_refl)).
Defined.

(** A third record is created in production and deleted again. *)
Lemma post_then_delete_restores_witness :
  let g := {| randomUUID := js "c1a5e0de-93f1-4b7e-8d2a-5e6f7a8b9c03";
              toISOString := js "2024-05-01T10:00:09.000Z" |} in
  let c := Sample.production (Sample.request [] Sample.walk_dog) in
  let c' := Sample.production (Sample.request (randomUUID g) JNull) in
  (randomUUID g ∉ id <$> collection c Sample.kv_store)
  ∧ ∃ t, (post_api_todos g c Sample.kv_store).1 = json (Success (inl t)) 201
         ∧ (delete_api_todos_id c' (post_api_todos g c Sample.kv_store).2).1
           = json (Success (inl t)) 200
         ∧ collection c (delete_api_todos_id c' (post_api_todos g c Sample.kv_store).2).2
           = collection c Sample.kv_store.
Proof.
  intros g c c'.
  assert (randomUUID g ∉ id <$> collection c Sample.kv_store) as Hfresh.
  { vm_compute. intros H. repeat (apply elem_of_cons in H as [H|H]; [done|]).
    by apply elem_of_nil in H. }
  assert (trim (js "Walk the dog") ≠ []) as Htrim by by vm_compute.
  split; [done|].
  exact (post_then_delete_restores g c c' Sample.kv_store Sample.walk_dog
           (js "Walk the dog") eq_refl eq_refl Htrim (conj eq_refl eq_refl)
           (conj eq_refl eq_refl) eq_refl eq_refl Hfresh).
Defined.

(** The store after one create of a local run. *)
Lemma obtainable_tasks_are_tidy_witness :
  let c := Sample.local (Sample.request [] Sample.buy_milk) in
  let w := (handle (Create Sample.host1 c) empty_world).2 in
  obtainable w ∧ collection c w = [Sample.milk] ∧ Forall tidy (collection c w).
Proof.
  intros c w.
  assert (obtainable w) as Hw by (apply obtainable_step, obtainable_empty).
  split; [done|]. split; [by vm_compute|].
  exact (obtainable_tasks_are_tidy w c Hw).
Defined.

End Server_more.

(** ** The other revisions *)

(** C3 fails where the id is [Date.now()]: two creates served within one
    millisecond leave two records with one id in the collection. *)
Lemma kvonly_same_millisecond_same_id :
  let g := {| KVOnly.Date_now := 1714557600000;
              KVOnly.toISOString := js "2024-05-01T10:00:00.000Z" |} in
  let c task := {| KVOnly.TODO_KV := Some {| KVOnly.get_rejects := false;
                                             KVOnly.put_rejects := false |};
                   KVOnly.req := {| KVOnly.param_id := [];
                                    KVOnly.req_json := inr (JObj [(js "task", JStr task)]) |} |} in
  let w1 := (KVOnly.post_api_todos g (c (js "Buy milk")) ∅).2 in
  let w2 := (KVOnly.post_api_todos g (c (js "Walk the dog")) w1).2 in
  length (KVOnly.collection w2) = 2%nat
  ∧ ¬ NoDup (KVOnly.id <$> KVOnly.collection w2).
Proof.
  vm_compute. split; [done|]. intros [Hin _]%NoDup_cons. apply Hin. by left.
Qed.


(** C4 fails in the first revision: a create whose [task] is the empty
    string is answered 200 and the record is stored. *)
Lemma prototype_stores_empty_task :
  let body := JObj [(js "task", JStr [])] in
  let newTask := {| Prototype.id := 1714557600000; Prototype.task := Some (JStr []) |} in
  trim [] = []
  ∧ Prototype.post_api_todos 1714557600000 (inr body) Prototype.tasks
    = (Prototype.Json (inl newTask) 200, Prototype.tasks ++ [newTask]).
Proof. by vm_compute. Qed.

(** ** More about the revision that stores to KV only *)

Ltac run_kvonly :=
  cbv beta iota zeta delta
    [mbind mret Eff_bind Eff_ret bind ret return_ throw gets modify lift
     return_if when try_catch run_handler
     KVOnly.serve KVOnly.get_api_todos KVOnly.post_api_todos KVOnly.put_api_todos_id
     KVOnly.element json_ok];
  cbn [negb andb orb].

Section KVOnly_facts.
Import KVOnly.

Lemma kvonly_getTasks_eq c w : getTasks c w = (Normal (loaded c w), w).
Proof.
  unfold getTasks, loaded, kv_get, collection. run_kvonly.
  destruct (TODO_KV c) as [ns|]; [|done].
  destruct (get_rejects ns); [done|]. run_kvonly. by destruct (w !! "tasks").
Qed.

Lemma kvonly_saveTasks_eq c l w : saveTasks c l w = (Normal tt, saved c l w).
Proof.
  unfold saveTasks, saved, kv_put. run_kvonly.
  destruct (TODO_KV c) as [ns|]; [|done]. by destruct (put_rejects ns).
Qed.

(** The list handler of this revision never answers with an error: it
    returns the stored collection with 200, and the empty list with 200 when
    the binding is missing or the read rejects. *)
Theorem kvonly_get_never_fails c w :
  get_api_todos c w = (json (Success (inr (loaded c w))) 200, w).
Proof. unfold get_api_todos. run_kvonly. by rewrite kvonly_getTasks_eq. Qed.

Lemma kvonly_post_eq g c w body v :
  req_json (req c) = inr body →
  property body (js "task") = inr v →
  post_api_todos g c w =
    if negb (toBoolean v) || negb (is_type v TString) || is_empty (trim_of v)
    then (json (Failure CampoTaskObrigatorio) 400, w)
    else
      let newTask := {| id := Date_now g; task := trim_of v; completed := false;
                        createdAt := Some (toISOString g) |} in
      (json (Success (inl newTask)) 201, saved c (loaded c w ++ [newTask]) w).
Proof.
  intros Hb Hv. unfold post_api_todos. run_kvonly. rewrite Hb. run_kvonly.
  rewrite Hv. run_kvonly.
  destruct (negb (toBoolean v) || negb (is_type v TString) || is_empty (trim_of v));
    run_kvonly; [done|].
  rewrite kvonly_getTasks_eq. run_kvonly. by rewrite kvonly_saveTasks_eq.
Qed.

Lemma kvonly_valid_task s :
  trim s ≠ [] →
  negb (toBoolean (Some (JStr s))) || negb (is_type (Some (JStr s)) TString)
  || is_empty (trim_of (Some (JStr s))) = false.
Proof.
  intros Hs. assert (s ≠ []) by by intros ->.
  simpl. by destruct s, (trim _).
Qed.

(** A valid create is answered 201 with the new record even when the
    record could not be stored: if the write rejects, or there is no
    binding, the store is left as it was. *)
Theorem kvonly_post_created_but_not_stored g c w body s :
  req_json (req c) = inr body →
  property body (js "task") = inr (Some (JStr s)) →
  trim s ≠ [] →
  TODO_KV c = None ∨ (∃ ns, TODO_KV c = Some ns ∧ put_rejects ns = true) →
  post_api_todos g c w
  = (json (Success (inl {| id := Date_now g; task := trim s; completed := false;
                           createdAt := Some (toISOString g) |})) 201, w).
Proof.
  intros Hb Hv Hs Hno.
  rewrite (kvonly_post_eq g c w body _ Hb Hv), (kvonly_valid_task s Hs). simpl.
  unfold saved. by destruct Hno as [->|(ns & -> & ->)].
Qed.

(** A valid create that follows a read that rejected writes the new record
    alone: the records that were stored are gone, and the answer is 201. *)
Theorem kvonly_post_after_failed_read_overwrites g c w body s ns :
  req_json (req c) = inr body →
  property body (js "task") = inr (Some (JStr s)) →
  trim s ≠ [] →
  TODO_KV c = Some ns → get_rejects ns = true → put_rejects ns = false →
  let newTask := {| id := Date_now g; task := trim s; completed := false;
                    createdAt := Some (toISOString g) |} in
  (post_api_todos g c w).1 = json (Success (inl newTask)) 201
  ∧ collection (post_api_todos g c w).2 = [newTask].
Proof.
  intros Hb Hv Hs Hkv Hg Hp newTask.
  rewrite (kvonly_post_eq g c w body _ Hb Hv), (kvonly_valid_task s Hs).
  unfold saved, loaded. rewrite Hkv, Hg, Hp. cbn [fst snd trim_of].
  split; [done|]. unfold collection, World in *. by rewrite lookup_insert_eq.
Qed.

(** Runs a handler body of this revision as far as the hypotheses decide. *)
Ltac kvonly_go :=
  repeat progress
    (run_kvonly;
     rewrite ?kvonly_saveTasks_eq, ?at_index_of_nat, ?Nat2Z.id;
     repeat match goal with
       | H : property _ _ = _ |- _ => rewrite H
       | H : _ !! _ = Some _ |- _ => rewrite H
       end;
     rewrite ?list_lookup_insert_eq by (rewrite ?length_insert; done)).

Lemma kvonly_put_missing c w body :
  req_json (req c) = inr body →
  findIndex (id_is (parseInt (param_id (req c)))) (loaded c w) = -1 →
  put_api_todos_id c w = (json (Failure TarefaNaoEncontrada) 404, w).
Proof.
  intros Hb Hfi. unfold put_api_todos_id. run_kvonly. rewrite Hb. run_kvonly.
  rewrite kvonly_getTasks_eq. run_kvonly. rewrite Hfi. by run_kvonly.
Qed.

(** The update handler on a stored record, for a body that is not [null]:
    every way it can end. *)
Lemma kvonly_put_found c w body vt vc n t :
  req_json (req c) = inr body →
  property body (js "task") = inr vt →
  property body (js "completed") = inr vc →
  findIndex (id_is (parseInt (param_id (req c)))) (loaded c w) = Z.of_nat n →
  loaded c w !! n = Some t →
  put_api_todos_id c w =
    if negb (is_undefined vt) && (negb (is_type vt TString) || is_empty (trim_of vt))
    then (json (Failure CampoTaskInvalido) 400, w)
    else
      let t1 := if is_undefined vt then t else with_task (trim_of vt) t in
      let t2 := if is_undefined vc then t1 else with_completed (toBoolean vc) t1 in
      (json (Success (inl t2)) 200, saved c (<[n := t2]> (loaded c w)) w).
Proof.
  intros Hb Hvt Hvc Hfi Ht.
  assert (n < length (loaded c w))%nat as Hn by by eapply lookup_lt_Some.
  unfold put_api_todos_id. run_kvonly. rewrite Hb. run_kvonly.
  rewrite kvonly_getTasks_eq. run_kvonly.
  rewrite Hfi, of_nat_neq_minus_one. run_kvonly. rewrite Hvt. run_kvonly.
  destruct (is_undefined vt); run_kvonly.
  - rewrite Hvc. run_kvonly. destruct (is_undefined vc); kvonly_go.
    + by rewrite (list_insert_id _ _ _ Ht).
    + done.
  - destruct (negb (is_type vt TString) || is_empty (trim_of vt)); run_kvonly; [done|].
    kvonly_go. destruct (is_undefined vc); kvonly_go; [done|].
    by rewrite list_insert_insert_eq.
Qed.

Lemma kvonly_findIndex_known (i : Z) (l : list Task) :
  i ∈ id <$> l →
  ∃ n t, findIndex (id_is (Some i)) l = Z.of_nat n ∧ l !! n = Some t ∧ id t = i.
Proof.
  intros (t & -> & Ht)%list_elem_of_fmap.
  destruct (findIndex_cases (id_is (Some (id t))) l)
    as [[_ Hnone]|(n & t' & Hfi & Hn & Hp & _)].
  - specialize (Hnone t Ht). simpl in Hnone. lia.
  - exists n, t'. split; [done|]. split; [done|]. simpl in Hp. lia.
Qed.

(** This revision never rejects an update for its [completed]: whatever
    value the field holds, a string or a number or [null], the record is
    answered with 200 and [completed] set to the value as a condition. *)
Theorem kvonly_put_coerces_any_completed c w body v i :
  req_json (req c) = inr body →
  property body (js "task") = inr undefined →
  property body (js "completed") = inr (Some v) →
  parseInt (param_id (req c)) = Some i →
  i ∈ id <$> loaded c w →
  ∃ n t, loaded c w !! n = Some t ∧ id t = i
         ∧ put_api_todos_id c w
           = (json (Success (inl (with_completed (toBoolean (Some v)) t))) 200,
              saved c (<[n := with_completed (toBoolean (Some v)) t]> (loaded c w)) w).
Proof.
  intros Hb Hvt Hvc Hparse (n & t & Hfi & Ht & Hid)%kvonly_findIndex_known.
  exists n, t. split; [done|]. split; [done|].
  rewrite <- Hparse in Hfi.
  by rewrite (kvonly_put_found c w body _ _ n t Hb Hvt Hvc Hfi Ht).
Qed.

(** An update whose path parameter does not start with a number (after
    white space and a sign) is answered 404 and changes nothing. *)
Theorem kvonly_put_id_not_a_number c w body :
  req_json (req c) = inr body →
  parseInt (param_id (req c)) = None →
  put_api_todos_id c w = (json (Failure TarefaNaoEncontrada) 404, w).
Proof.
  intros Hb Hparse. apply (kvonly_put_missing c w body Hb).
  rewrite Hparse. by apply findIndex_none.
Qed.

(** *** The theorems above on sample requests *)

(** A create while the write rejects, and one after a read that rejected,
    on a store that holds one record. *)
Lemma kvonly_post_created_but_not_stored_witness :
  let ns := {| get_rejects := false; put_rejects := true |} in
  let c := {| TODO_KV := Some ns;
              req := {| param_id := [];
                        req_json := inr (JObj [(js "task", JStr (js " Buy milk"))]) |} |} in
  let g := {| Date_now := 1714557600000; toISOString := js "2024-05-01T10:00:00.000Z" |} in
  let w : World := {[ "tasks" := [{| id := 7; task := js "Walk the dog";
                                     completed := false; createdAt := None |}] ]} in
  post_api_todos g c w
  = (json (Success (inl {| id := Date_now g; task := trim (js " Buy milk");
                           completed := false;
                           createdAt := Some (toISOString g) |})) 201, w).
Proof.
  intros ns c g w.
  assert (trim (js " Buy milk") ≠ []) as Htrim by by vm_compute.
  exact (kvonly_post_created_but_not_stored g c w _ (js " Buy milk") eq_refl eq_refl Htrim
           (or_intror (ex_intro _ ns (conj eq_refl eq_refl)))).
Defined.

Lemma kvonly_post_after_failed_read_overwrites_witness :
  let ns := {| get_rejects := true; put_rejects := false |} in
  let c := {| TODO_KV := Some ns;
              req := {| param_id := [];
                        req_json := inr (JObj [(js "task", JStr (js " Buy milk"))]) |} |} in
  let g := {| Date_now := 1714557600000; toISOString := js "2024-05-01T10:00:00.000Z" |} in
  let w : World := {[ "tasks" := [{| id := 7; task := js "Walk the dog";
                                     completed := false; createdAt := None |}] ]} in
  let newTask := {| id := Date_now g; task := trim (js " Buy milk"); completed := false;
                    createdAt := Some (toISOString g) |} in
  length (collection w) = 1%nat
  ∧ (post_api_todos g c w).1 = json (Success (inl newTask)) 201
  ∧ collection (post_api_todos g c w).2 = [newTask].
Proof.
  intros ns c g w newTask.
  assert (trim (js " Buy milk") ≠ []) as Htrim by by vm_compute.
  split; [by vm_compute|].
  exact (kvonly_post_after_failed_read_overwrites g c w _ (js " Buy milk") ns
           eq_refl eq_refl Htrim eq_refl eq_refl eq_refl).
Defined.

(** An update whose [completed] is the number 0, and one whose path
    parameter is a word. *)
Lemma kvonly_put_coerces_any_completed_witness :
  let ns := {| get_rejects := false; put_rejects := false |} in
  let c := {| TODO_KV := Some ns;
              req := {| param_id := js "7";
                        req_json := inr (JObj [(js "completed", JNum 0)]) |} |} in
  let w : World := {[ "tasks" := [{| id := 7; task := js "Walk the dog";
                                     completed := true; createdAt := None |}] ]} in
  ∃ n t, loaded c w !! n = Some t ∧ id t = 7
         ∧ put_api_todos_id c w
           = (json (Success (inl (with_completed (toBoolean (Some (JNum 0))) t))) 200,
              saved c (<[n := with_completed (toBoolean (Some (JNum 0))) t]> (loaded c w)) w).
Proof.
  intros ns c w.
  assert (7 ∈ id <$> loaded c w) as Hid by (vm_compute; by left).
  exact (kvonly_put_coerces_any_completed c w _ (JNum 0) 7 eq_refl eq_refl eq_refl
           eq_refl Hid).
Defined.

Lemma kvonly_put_id_not_a_number_witness :
  let ns := {| get_rejects := false; put_rejects := false |} in
  let c := {| TODO_KV := Some ns;
              req := {| param_id := js "seven";
                        req_json := inr (JObj [(js "completed", JBool true)]) |} |} in
  let w : World := {[ "tasks" := [{| id := 7; task := js "Walk the dog";
                                     completed := false; createdAt := None |}] ]} in
  parseInt (js "seven") = None
  ∧ put_api_todos_id c w = (json (Failure TarefaNaoEncontrada) 404, w).
Proof.
  intros ns c w. split; [done|].
  exact (kvonly_put_id_not_a_number c w _ eq_refl eq_refl).
Defined.

End KVOnly_facts.

(** ** The revision that mirrors the local list to a file *)

Ltac run_fb :=
  cbv beta iota zeta delta
    [mbind mret Eff_bind Eff_ret bind ret return_ throw gets modify lift
     return_if when try_catch run_handler
     FileBacked.serve FileBacked.get_api_todos FileBacked.post_api_todos
     FileBacked.put_api_todos_id FileBacked.delete_api_todos_id
     FileBacked.fresh_array FileBacked.push FileBacked.array_findIndex
     FileBacked.element FileBacked.element_or_undefined FileBacked.assign
     FileBacked.splice_one FileBacked.deref FileBacked.store
     FileBacked.generateId FileBacked.saveLocalTasks FileBacked.writeFileSync json_ok];
  cbn [FileBacked.world FileBacked.parsed FileBacked.localTasks FileBacked.kv
       FileBacked.file FileBacked.set_localTasks FileBacked.set_kv FileBacked.set_file
       Server.TODO_KV Server.req Server.param_id Server.req_json
       Server.get_rejects Server.put_rejects negb andb orb].

Section FileBacked_facts.
Import FileBacked.

Lemma fb_getTasks_eq {R} c m :
  getTasks (R := R) c m =
    match Server.TODO_KV c with
    | Some ns =>
        if Server.get_rejects ns then (Throw (Error "Failed to load tasks from KV"), m)
        else (Normal Server.ParsedArray,
              {| world := world m; parsed := collection c (world m) |})
    | None => (Normal Server.LocalTasksArray, m)
    end.
Proof.
  unfold getTasks, collection. destruct (Server.TODO_KV c) as [ns|]; [|done].
  unfold kv_get. destruct (Server.get_rejects ns); [done|].
  run_fb. by destruct (kv (world m) !! "tasks"%string).
Qed.

Lemma fb_saveTasks_eq {R} fs c a m :
  saveTasks (R := R) fs c a m =
    match Server.TODO_KV c with
    | Some ns =>
        if Server.put_rejects ns then (Throw (Error "Failed to save tasks to KV"), m)
        else (Normal tt, {| world := persist fs c (deref a m) (world m);
                            parsed := parsed m |})
    | None => (Normal tt, {| world := persist fs c (deref a m) (world m);
                            parsed := parsed m |})
    end.
Proof.
  unfold saveTasks, persist. destruct (Server.TODO_KV c) as [ns|].
  - unfold kv_put. by destruct (Server.put_rejects ns).
  - unfold file_after_save. run_fb.
    by destruct (write_throws fs); [destruct (throws_at fs)|]; run_fb; destruct m as [[]].
Qed.

Lemma fb_collection_local c w :
  Server.TODO_KV c = None → collection c w = localTasks w.
Proof. unfold collection. by intros ->. Qed.

(** Runs a handler body of this revision as far as the hypotheses decide. *)
Ltac fb_go :=
  repeat progress
    (run_fb;
     repeat match goal with
       | H : property _ _ = _ |- _ => rewrite H
       | H : Server.TODO_KV _ = _ |- _ => rewrite H
       | H : _ !! _ = Some _ |- _ => rewrite H
       | _ => rewrite at_index_of_nat
       | _ => rewrite Nat2Z.id
       | _ => rewrite fb_saveTasks_eq
       end;
     rewrite ?list_lookup_insert_eq by (rewrite ?length_insert; done)).

(** The same for a local run, where [saveTasks] also writes the file. *)
Ltac fb_local :=
  repeat progress
    (fb_go; unfold persist;
     repeat match goal with
       | H : Server.TODO_KV _ = _ |- _ => rewrite H
       end).

(** The list handler: the collection with 200, or, when the read of the
    KV namespace rejects, an exception that nothing catches. *)
Lemma fb_get_eq c w :
  get_api_todos c w =
    if Server.kv_get_rejects c then (None, w)
    else (Some (json (Success (inr (collection c w))) 200), w).
Proof.
  unfold get_api_todos. run_fb. rewrite fb_getTasks_eq. unfold Server.kv_get_rejects.
  destruct (Server.TODO_KV c) as [ns|] eqn:Hkv.
  - by destruct (Server.get_rejects ns); run_fb.
  - run_fb. by rewrite (fb_collection_local c w Hkv).
Qed.

Lemma fb_post_eq g fs c w body v :
  Server.req_json (Server.req c) = inr body →
  property body (js "task") = inr v →
  post_api_todos g fs c w =
    if negb (toBoolean v) || negb (Server.is_type v TString) || is_empty (trim_of v)
    then (json (Failure CampoTaskObrigatorio) 400, w)
    else if Server.kv_get_rejects c || Server.kv_put_rejects c
    then (json (Failure ErroAoProcessarRequisicao) 400, w)
    else
      let newTask := {| Server.id := Server.randomUUID g; Server.task := trim_of v;
                        Server.completed := false;
                        Server.createdAt := Server.toISOString g |} in
      (json (Success (inl newTask)) 201, persist fs c (collection c w ++ [newTask]) w).
Proof.
  intros Hb Hv. unfold post_api_todos. run_fb. rewrite Hb. run_fb. rewrite Hv. run_fb.
  destruct (negb (toBoolean v) || negb (Server.is_type v TString) || is_empty (trim_of v));
    run_fb; [done|].
  rewrite fb_getTasks_eq. unfold Server.kv_get_rejects, Server.kv_put_rejects.
  destruct (Server.TODO_KV c) as [[gr pr]|] eqn:Hkv.
  - destruct gr; run_fb; [done|]. fb_go. by destruct pr; run_fb.
  - fb_go. rewrite (fb_collection_local c w Hkv). unfold persist. by rewrite Hkv.
Qed.

Lemma fb_put_unparsed fs c w e :
  Server.req_json (Server.req c) = inl e →
  put_api_todos_id fs c w = (json (Failure ErroAoProcessarRequisicao) 400, w).
Proof. intros Hb. unfold put_api_todos_id. run_fb. rewrite Hb. by run_fb. Qed.

Lemma fb_put_unread fs c w body :
  Server.req_json (Server.req c) = inr body →
  Server.kv_get_rejects c = true →
  put_api_todos_id fs c w = (json (Failure ErroAoProcessarRequisicao) 400, w).
Proof.
  intros Hb Hg. unfold put_api_todos_id. run_fb. rewrite Hb. run_fb.
  rewrite fb_getTasks_eq. unfold Server.kv_get_rejects in Hg.
  destruct (Server.TODO_KV c) as [ns|]; [|done]. rewrite Hg. by run_fb.
Qed.

Lemma fb_put_missing fs c w body :
  Server.req_json (Server.req c) = inr body →
  Server.kv_get_rejects c = false →
  findIndex (λ t, bool_decide (Server.id t = Server.param_id (Server.req c)))
            (collection c w) = -1 →
  put_api_todos_id fs c w = (json (Failure TarefaNaoEncontrada) 404, w).
Proof.
  intros Hb Hg Hfi. unfold put_api_todos_id. run_fb. rewrite Hb. run_fb.
  rewrite fb_getTasks_eq. unfold Server.kv_get_rejects in Hg.
  destruct (Server.TODO_KV c) as [ns|] eqn:Hkv.
  - rewrite Hg. run_fb. rewrite Hfi. by run_fb.
  - rewrite (fb_collection_local c w Hkv) in Hfi. run_fb. rewrite Hfi. by run_fb.
Qed.

Lemma fb_put_null fs c w n :
  Server.req_json (Server.req c) = inr JNull →
  Server.kv_get_rejects c = false →
  findIndex (λ t, bool_decide (Server.id t = Server.param_id (Server.req c)))
            (collection c w) = Z.of_nat n →
  put_api_todos_id fs c w = (json (Failure ErroAoProcessarRequisicao) 400, w).
Proof.
  intros Hb Hg Hfi. unfold put_api_todos_id. run_fb. rewrite Hb. run_fb.
  rewrite fb_getTasks_eq. unfold Server.kv_get_rejects in Hg.
  destruct (Server.TODO_KV c) as [ns|] eqn:Hkv.
  - rewrite Hg. run_fb. rewrite Hfi, of_nat_neq_minus_one. by run_fb.
  - rewrite (fb_collection_local c w Hkv) in Hfi. run_fb.
    rewrite Hfi, of_nat_neq_minus_one. by run_fb.
Qed.

(** The update handler on a stored record, for a body that is not [null]
    and a store that can be read: every way it can end. *)
Lemma fb_put_found fs c w body vt vc n t :
  Server.req_json (Server.req c) = inr body →
  property body (js "task") = inr vt →
  property body (js "completed") = inr vc →
  Server.kv_get_rejects c = false →
  findIndex (λ t, bool_decide (Server.id t = Server.param_id (Server.req c)))
            (collection c w) = Z.of_nat n →
  collection c w !! n = Some t →
  put_api_todos_id fs c w =
    if negb (Server.is_undefined vt)
       && (negb (Server.is_type vt TString) || is_empty (trim_of vt))
    then (json (Failure CampoTaskInvalido) 400, w)
    else
      let t1 := if Server.is_undefined vt then t
                else Server.with_task (trim_of vt) t in
      if negb (Server.is_undefined vc) && negb (Server.is_type vc TBoolean)
      then (json (Failure CampoCompletedInvalido) 400,
            if Server.uses_kv c then w
            else set_localTasks (<[n := t1]> (collection c w)) w)
      else if Server.kv_put_rejects c
      then (json (Failure ErroAoProcessarRequisicao) 400, w)
      else
        let t2 := if Server.is_undefined vc then t1
                  else Server.with_completed (boolean_of vc) t1 in
        (json (Success (inl (Some t2))) 200,
         persist fs c (<[n := t2]> (collection c w)) w).
Proof.
  intros Hb Hvt Hvc Hg Hfi Ht.
  assert (n < length (collection c w))%nat as Hn by by eapply lookup_lt_Some.
  unfold put_api_todos_id. run_fb. rewrite Hb. run_fb. rewrite fb_getTasks_eq.
  unfold Server.kv_get_rejects, Server.kv_put_rejects, Server.uses_kv in *.
  destruct (Server.TODO_KV c) as [[gr pr]|] eqn:Hkv.
  - simpl in Hg. subst gr. run_fb.
    rewrite Hfi, of_nat_neq_minus_one. run_fb. rewrite Hvt. run_fb.
    destruct (Server.is_undefined vt); run_fb.
    + rewrite Hvc. run_fb. destruct (Server.is_undefined vc); run_fb.
      * fb_go. destruct pr; fb_go; [done|]. by rewrite (list_insert_id _ _ _ Ht).
      * destruct (negb (Server.is_type vc TBoolean)); fb_go; [done|].
        by destruct pr; fb_go.
    + destruct (negb (Server.is_type vt TString) || is_empty (trim_of vt)); run_fb; [done|].
      fb_go. destruct (Server.is_undefined vc); run_fb.
      * fb_go. by destruct pr; fb_go.
      * destruct (negb (Server.is_type vc TBoolean)); fb_go; [done|].
        destruct pr; fb_go; [done|]. by rewrite list_insert_insert_eq.
  - rewrite (fb_collection_local c w Hkv) in *. run_fb.
    rewrite Hfi, of_nat_neq_minus_one. run_fb. rewrite Hvt. run_fb.
    (destruct (Server.is_undefined vt); run_fb;
       [ rewrite Hvc; run_fb; destruct (Server.is_undefined vc); run_fb;
         [ fb_local; by rewrite (list_insert_id _ _ _ Ht)
         | destruct (negb (Server.is_type vc TBoolean)); fb_local; [|done];
           rewrite (list_insert_id _ _ _ Ht); by destruct w ]
       | destruct (negb (Server.is_type vt TString) || is_empty (trim_of vt));
           run_fb; [done|];
         fb_local; destruct (Server.is_undefined vc); run_fb;
         [ by fb_local
         | destruct (negb (Server.is_type vc TBoolean)); fb_local; [done|];
           by rewrite list_insert_insert_eq ] ]).
Qed.

Lemma fb_delete_unread fs c w :
  Server.kv_get_rejects c = true →
  delete_api_todos_id fs c w = (json (Failure ErroAoProcessarRequisicao) 400, w).
Proof.
  intros Hg. unfold delete_api_todos_id. run_fb.
  rewrite fb_getTasks_eq. unfold Server.kv_get_rejects in Hg.
  destruct (Server.TODO_KV c) as [ns|]; [|done]. rewrite Hg. by run_fb.
Qed.

Lemma fb_delete_missing fs c w :
  Server.kv_get_rejects c = false →
  findIndex (λ t, bool_decide (Server.id t = Server.param_id (Server.req c)))
            (collection c w) = -1 →
  delete_api_todos_id fs c w = (json (Failure TarefaNaoEncontrada) 404, w).
Proof.
  intros Hg Hfi. unfold delete_api_todos_id. run_fb.
  rewrite fb_getTasks_eq. unfold Server.kv_get_rejects in Hg.
  destruct (Server.TODO_KV c) as [ns|] eqn:Hkv.
  - rewrite Hg. run_fb. rewrite Hfi. by run_fb.
  - rewrite (fb_collection_local c w Hkv) in Hfi. run_fb. rewrite Hfi. by run_fb.
Qed.

Lemma fb_delete_found fs c w n t :
  Server.kv_get_rejects c = false →
  findIndex (λ t, bool_decide (Server.id t = Server.param_id (Server.req c)))
            (collection c w) = Z.of_nat n →
  collection c w !! n = Some t →
  delete_api_todos_id fs c w =
    if Server.kv_put_rejects c then (json (Failure ErroAoProcessarRequisicao) 400, w)
    else (json (Success (inl (Some t))) 200, persist fs c (delete n (collection c w)) w).
Proof.
  intros Hg Hfi Ht. unfold delete_api_todos_id. run_fb.
  rewrite fb_getTasks_eq. unfold Server.kv_get_rejects, Server.kv_put_rejects in *.
  destruct (Server.TODO_KV c) as [[gr pr]|] eqn:Hkv.
  - simpl in Hg. subst gr. run_fb. rewrite Hfi, of_nat_neq_minus_one. fb_go.
    by destruct pr; fb_go.
  - rewrite (fb_collection_local c w Hkv) in *. run_fb.
    rewrite Hfi, of_nat_neq_minus_one.
    by fb_local.
Qed.

(** *** When the file is written *)

Lemma fb_post_file g fs c w :
  file (post_api_todos g fs c w).2 =
    if negb (Server.uses_kv c) && succeeded (post_api_todos g fs c w).1
    then file_after_save fs (localTasks (post_api_todos g fs c w).2) (file w)
    else file w.
Proof.
  destruct (Server.req_json (Server.req c)) as [e|body] eqn:Hb.
  { unfold post_api_todos. run_fb. rewrite Hb. run_fb. by rewrite andb_false_r. }
  destruct (property body (js "task")) as [e|v] eqn:Hv.
  { unfold post_api_todos. run_fb. rewrite Hb. run_fb. rewrite Hv. run_fb.
    by rewrite andb_false_r. }
  rewrite (fb_post_eq g fs c w body v Hb Hv).
  destruct (negb (toBoolean v) || _ || _); [by rewrite andb_false_r|].
  destruct (Server.kv_get_rejects c || Server.kv_put_rejects c);
    [by rewrite andb_false_r|].
  unfold persist, Server.uses_kv. simpl. by destruct (Server.TODO_KV c).
Qed.

Lemma fb_put_file fs c w :
  file (put_api_todos_id fs c w).2 =
    if negb (Server.uses_kv c) && succeeded (put_api_todos_id fs c w).1
    then file_after_save fs (localTasks (put_api_todos_id fs c w).2) (file w)
    else file w.
Proof.
  destruct (Server.req_json (Server.req c)) as [e|body] eqn:Hb.
  { rewrite (fb_put_unparsed fs c w e Hb). by rewrite andb_false_r. }
  destruct (Server.kv_get_rejects c) eqn:Hg.
  { rewrite (fb_put_unread fs c w body Hb Hg). by rewrite andb_false_r. }
  destruct (findIndex_cases
              (λ t, bool_decide (Server.id t = Server.param_id (Server.req c)))
              (collection c w)) as [[Hfi _]|(n & t & Hfi & Ht & _)].
  { rewrite (fb_put_missing fs c w body Hb Hg Hfi). by rewrite andb_false_r. }
  destruct (property body (js "task")) as [e|vt] eqn:Hvt.
  { apply property_throws in Hvt as ->. rewrite (fb_put_null fs c w n Hb Hg Hfi).
    by rewrite andb_false_r. }
  destruct (property body (js "completed")) as [e|vc] eqn:Hvc.
  { apply property_throws in Hvc as ->. rewrite (fb_put_null fs c w n Hb Hg Hfi).
    by rewrite andb_false_r. }
  rewrite (fb_put_found fs c w body vt vc n t Hb Hvt Hvc Hg Hfi Ht).
  destruct (negb (Server.is_undefined vt) && _); [by rewrite andb_false_r|]. simpl.
  destruct (negb (Server.is_undefined vc) && _); simpl.
  { rewrite andb_false_r. by destruct (Server.uses_kv c). }
  destruct (Server.kv_put_rejects c); [by rewrite andb_false_r|].
  unfold persist, Server.uses_kv. simpl. by destruct (Server.TODO_KV c).
Qed.

Lemma fb_delete_file fs c w :
  file (delete_api_todos_id fs c w).2 =
    if negb (Server.uses_kv c) && succeeded (delete_api_todos_id fs c w).1
    then file_after_save fs (localTasks (delete_api_todos_id fs c w).2) (file w)
    else file w.
Proof.
  destruct (Server.kv_get_rejects c) eqn:Hg.
  { rewrite (fb_delete_unread fs c w Hg). by rewrite andb_false_r. }
  destruct (findIndex_cases
              (λ t, bool_decide (Server.id t = Server.param_id (Server.req c)))
              (collection c w)) as [[Hfi _]|(n & t & Hfi & Ht & _)].
  { rewrite (fb_delete_missing fs c w Hg Hfi). by rewrite andb_false_r. }
  rewrite (fb_delete_found fs c w n t Hg Hfi Ht).
  destruct (Server.kv_put_rejects c); [by rewrite andb_false_r|].
  unfold persist, Server.uses_kv. simpl. by destruct (Server.TODO_KV c).
Qed.

(** In a local run with a file that can be written, once a create, an
    update or a delete has been answered with success the file holds the
    list that is in memory: reading it back, as the module does when it is
    loaded, gives that list again. *)
Theorem fb_file_mirrors_memory_after_success g fs c w :
  Server.TODO_KV c = None →
  write_throws fs = false →
  (succeeded (post_api_todos g fs c w).1 = true →
     loadLocalTasks (file (post_api_todos g fs c w).2)
     = localTasks (post_api_todos g fs c w).2)
  ∧ (succeeded (put_api_todos_id fs c w).1 = true →
       loadLocalTasks (file (put_api_todos_id fs c w).2)
       = localTasks (put_api_todos_id fs c w).2)
  ∧ (succeeded (delete_api_todos_id fs c w).1 = true →
       loadLocalTasks (file (delete_api_todos_id fs c w).2)
       = localTasks (delete_api_todos_id fs c w).2).
Proof.
  intros Hkv Hw.
  assert (Server.uses_kv c = false) as Hu by (unfold Server.uses_kv; by rewrite Hkv).
  split_and!; intros Hok.
  - rewrite fb_post_file, Hu, Hok. unfold file_after_save. by rewrite Hw.
  - rewrite fb_put_file, Hu, Hok. unfold file_after_save. by rewrite Hw.
  - rewrite fb_delete_file, Hu, Hok. unfold file_after_save. by rewrite Hw.
Qed.

(** A request served with the KV binding leaves the file as it is,
    whatever it is answered with. *)
Theorem fb_kv_requests_leave_file g fs c w :
  Server.uses_kv c = true →
  file (post_api_todos g fs c w).2 = file w
  ∧ file (put_api_todos_id fs c w).2 = file w
  ∧ file (delete_api_todos_id fs c w).2 = file w
  ∧ file (get_api_todos c w).2 = file w.
Proof.
  intros Hu. rewrite fb_post_file, fb_put_file, fb_delete_file, Hu, fb_get_eq. simpl.
  by destruct (Server.kv_get_rejects c).
Qed.

(** A request that is answered with a failure leaves the file as it is. *)
Theorem fb_failure_keeps_file g fs c w :
  (succeeded (post_api_todos g fs c w).1 = false →
     file (post_api_todos g fs c w).2 = file w)
  ∧ (succeeded (put_api_todos_id fs c w).1 = false →
       file (put_api_todos_id fs c w).2 = file w)
  ∧ (succeeded (delete_api_todos_id fs c w).1 = false →
       file (delete_api_todos_id fs c w).2 = file w).
Proof.
  split_and!; intros Hfail.
  - by rewrite fb_post_file, Hfail, andb_false_r.
  - by rewrite fb_put_file, Hfail, andb_false_r.
  - by rewrite fb_delete_file, Hfail, andb_false_r.
Qed.

(** The list handler answers 200 with the whole collection and changes
    nothing; when the read of the KV namespace rejects, nothing catches the
    exception and the answer is the plain 500 of the framework. *)
Theorem fb_get_lists_or_throws c w :
  get_api_todos c w =
    if Server.kv_get_rejects c then (None, w)
    else (Some (json (Success (inr (collection c w))) 200), w).
Proof. apply fb_get_eq. Qed.

(** *** This revision and [Server] *)

Lemma fb_collection_memory c w : collection c w = Server.collection c (memory w).
Proof. done. Qed.

Lemma fb_memory_persist fs c l w :
  memory (persist fs c l w) = Server.persist c l (memory w).
Proof.
  unfold persist, Server.persist. by destruct (Server.TODO_KV c).
Qed.

Lemma fb_memory_set_localTasks c l w :
  Server.uses_kv c = false →
  memory (set_localTasks l w) = Server.persist c l (memory w).
Proof. unfold Server.uses_kv, Server.persist. by destruct (Server.TODO_KV c). Qed.

Lemma fb_post_agrees g fs c w :
  (post_api_todos g fs c w).1 = with_400 (Server.post_api_todos g c (memory w)).1
  ∧ memory (post_api_todos g fs c w).2 = (Server.post_api_todos g c (memory w)).2.
Proof.
  destruct (Server.req_json (Server.req c)) as [e|body] eqn:Hb.
  { unfold post_api_todos, Server.post_api_todos. run_fb. run_eff. rewrite Hb.
    run_fb. by run_eff. }
  destruct (property body (js "task")) as [e|v] eqn:Hv.
  { unfold post_api_todos, Server.post_api_todos. run_fb. run_eff. rewrite Hb.
    run_fb. run_eff. rewrite Hv. run_fb. by run_eff. }
  rewrite (fb_post_eq g fs c w body v Hb Hv), (post_eq g c (memory w) body v Hb Hv).
  destruct (negb (toBoolean v) || _ || _); [done|].
  destruct (Server.kv_get_rejects c || Server.kv_put_rejects c); [done|].
  simpl. by rewrite fb_memory_persist.
Qed.

Lemma fb_put_agrees fs c w :
  (put_api_todos_id fs c w).1
  = with_optional_data (with_400 (Server.put_api_todos_id c (memory w)).1)
  ∧ memory (put_api_todos_id fs c w).2 = (Server.put_api_todos_id c (memory w)).2.
Proof.
  destruct (Server.req_json (Server.req c)) as [e|body] eqn:Hb.
  { by rewrite (fb_put_unparsed fs c w e Hb), (put_unparsed c (memory w) e Hb). }
  destruct (Server.kv_get_rejects c) eqn:Hg.
  { by rewrite (fb_put_unread fs c w body Hb Hg), (put_unread c (memory w) body Hb Hg). }
  destruct (findIndex_cases
              (λ t, bool_decide (Server.id t = Server.param_id (Server.req c)))
              (collection c w)) as [[Hfi _]|(n & t & Hfi & Ht & _)].
  { by rewrite (fb_put_missing fs c w body Hb Hg Hfi), (put_missing c (memory w) body Hb Hg Hfi). }
  destruct (property body (js "task")) as [e|vt] eqn:Hvt.
  { apply property_throws in Hvt as ->.
    by rewrite (fb_put_null fs c w n Hb Hg Hfi), (put_null c (memory w) n Hb Hg Hfi). }
  destruct (property body (js "completed")) as [e|vc] eqn:Hvc.
  { apply property_throws in Hvc as ->.
    by rewrite (fb_put_null fs c w n Hb Hg Hfi), (put_null c (memory w) n Hb Hg Hfi). }
  rewrite (fb_put_found fs c w body vt vc n t Hb Hvt Hvc Hg Hfi Ht),
          (put_found c (memory w) body vt vc n t Hb Hvt Hvc Hg Hfi Ht).
  destruct (negb (Server.is_undefined vt) && _); [done|]. simpl.
  destruct (negb (Server.is_undefined vc) && _); simpl.
  { split; [done|]. destruct (Server.uses_kv c) eqn:Hu; [done|].
    by apply fb_memory_set_localTasks. }
  destruct (Server.kv_put_rejects c); [done|]. simpl. by rewrite fb_memory_persist.
Qed.

Lemma fb_delete_agrees fs c w :
  (delete_api_todos_id fs c w).1
  = with_optional_data (with_400 (Server.delete_api_todos_id c (memory w)).1)
  ∧ memory (delete_api_todos_id fs c w).2 = (Server.delete_api_todos_id c (memory w)).2.
Proof.
  destruct (Server.kv_get_rejects c) eqn:Hg.
  { by rewrite (fb_delete_unread fs c w Hg), (delete_unread c (memory w) Hg). }
  destruct (findIndex_cases
              (λ t, bool_decide (Server.id t = Server.param_id (Server.req c)))
              (collection c w)) as [[Hfi _]|(n & t & Hfi & Ht & _)].
  { by rewrite (fb_delete_missing fs c w Hg Hfi), (delete_missing c (memory w) Hg Hfi). }
  rewrite (fb_delete_found fs c w n t Hg Hfi Ht), (delete_found c (memory w) n t Hg Hfi Ht).
  destruct (Server.kv_put_rejects c); [done|]. simpl. by rewrite fb_memory_persist.
Qed.

(** On the in-memory list and the KV namespace, and in what it answers,
    this revision does what [Server] does: the stores after a create, an
    update or a delete are the same, and the answers are the same but for
    the status of the general failure, 400 here and 500 there. *)
Theorem fb_agrees_with_server g fs c w :
  ((post_api_todos g fs c w).1 = with_400 (Server.post_api_todos g c (memory w)).1
   ∧ memory (post_api_todos g fs c w).2 = (Server.post_api_todos g c (memory w)).2)
  ∧ ((put_api_todos_id fs c w).1
     = with_optional_data (with_400 (Server.put_api_todos_id c (memory w)).1)
     ∧ memory (put_api_todos_id fs c w).2 = (Server.put_api_todos_id c (memory w)).2)
  ∧ ((delete_api_todos_id fs c w).1
     = with_optional_data (with_400 (Server.delete_api_todos_id c (memory w)).1)
     ∧ memory (delete_api_todos_id fs c w).2
       = (Server.delete_api_todos_id c (memory w)).2).
Proof.
  split; [apply fb_post_agrees|]. split; [apply fb_put_agrees|apply fb_delete_agrees].
Qed.

(** *** A write of the file that throws

    [saveLocalTasks] catches what [writeFileSync] throws and only logs it. *)

(** A request served while [writeFileSync] throws is answered as it is
    while the file can be written, and leaves the same in-memory list and
    the same KV namespace: the error of the write does not reach the
    caller.  The file is what the failed write left: after a request of a
    local run that is answered with success, the file as it was when the
    write threw at the opening, a file that holds no JSON (so that the next
    load of the module starts from the empty list) when it threw while
    writing, and the saved list when it threw at the closing; after any
    other request, the file as it was. *)
Theorem fb_write_error_is_swallowed g fs fs' c w :
  write_throws fs = true →
  write_throws fs' = false →
  let left (r : World) (ok : bool) : option (list Task) :=
    if negb (Server.uses_kv c) && ok then
      match throws_at fs with
      | OnOpen => file w
      | OnWrite => None
      | OnClose => Some (localTasks r)
      end
    else file w in
  ((post_api_todos g fs c w).1 = (post_api_todos g fs' c w).1
   ∧ memory (post_api_todos g fs c w).2 = memory (post_api_todos g fs' c w).2
   ∧ file (post_api_todos g fs c w).2
     = left (post_api_todos g fs c w).2 (succeeded (post_api_todos g fs c w).1))
  ∧ ((put_api_todos_id fs c w).1 = (put_api_todos_id fs' c w).1
     ∧ memory (put_api_todos_id fs c w).2 = memory (put_api_todos_id fs' c w).2
     ∧ file (put_api_todos_id fs c w).2
       = left (put_api_todos_id fs c w).2 (succeeded (put_api_todos_id fs c w).1))
  ∧ ((delete_api_todos_id fs c w).1 = (delete_api_todos_id fs' c w).1
     ∧ memory (delete_api_todos_id fs c w).2 = memory (delete_api_todos_id fs' c w).2
     ∧ file (delete_api_todos_id fs c w).2
       = left (delete_api_todos_id fs c w).2
              (succeeded (delete_api_todos_id fs c w).1)).
Proof.
  intros Hw Hw' left. subst left. cbv beta.
  rewrite fb_post_file, fb_put_file, fb_delete_file.
  unfold file_after_save. rewrite Hw.
  destruct (fb_post_agrees g fs c w) as [-> ->].
  destruct (fb_post_agrees g fs' c w) as [-> ->].
  destruct (fb_put_agrees fs c w) as [-> ->].
  destruct (fb_put_agrees fs' c w) as [-> ->].
  destruct (fb_delete_agrees fs c w) as [-> ->].
  destruct (fb_delete_agrees fs' c w) as [-> ->].
  done.
Qed.

(** *** The theorems above on sample requests *)

(** A create of a local run with a file that can be written. *)
Lemma fb_file_mirrors_memory_after_success_witness :
  let c := Sample.local (Sample.request (Server.id Sample.milk) Sample.buy_milk) in
  let fs := {| write_throws := false; throws_at := OnOpen |} in
  let w := loaded_module ∅ (Some [Sample.milk; Sample.dog]) in
  succeeded (post_api_todos Sample.host1 fs c w).1 = true
  ∧ (succeeded (post_api_todos Sample.host1 fs c w).1 = true →
       loadLocalTasks (file (post_api_todos Sample.host1 fs c w).2)
       = localTasks (post_api_todos Sample.host1 fs c w).2)
  ∧ (succeeded (put_api_todos_id fs c w).1 = true →
       loadLocalTasks (file (put_api_todos_id fs c w).2)
       = localTasks (put_api_todos_id fs c w).2)
  ∧ (succeeded (delete_api_todos_id fs c w).1 = true →
       loadLocalTasks (file (delete_api_todos_id fs c w).2)
       = localTasks (delete_api_todos_id fs c w).2).
Proof.
  intros c fs w. split; [by vm_compute|].
  exact (fb_file_mirrors_memory_after_success Sample.host1 fs c w eq_refl eq_refl).
Defined.

(** A create, an update and a delete of a local run while the disk is
    full: each is answered as it is with a file that can be written, and
    the file no longer holds the list. *)
Lemma fb_write_error_is_swallowed_witness :
  let c := Sample.local (Sample.request (Server.id Sample.milk) Sample.buy_milk) in
  let full := {| write_throws := true; throws_at := OnWrite |} in
  let fine := {| write_throws := false; throws_at := OnWrite |} in
  let w := loaded_module ∅ (Some [Sample.milk; Sample.dog]) in
  ((post_api_todos Sample.host3 full c w).1 = json (Success (inl Sample.milk3)) 201
   ∧ file (post_api_todos Sample.host3 full c w).2 = None
   ∧ loadLocalTasks (file (post_api_todos Sample.host3 full c w).2) = [])
  ∧ ((post_api_todos Sample.host3 full c w).1 = (post_api_todos Sample.host3 fine c w).1
     ∧ memory (post_api_todos Sample.host3 full c w).2
       = memory (post_api_todos Sample.host3 fine c w).2
     ∧ file (post_api_todos Sample.host3 full c w).2 = None)
  ∧ ((put_api_todos_id full c w).1 = (put_api_todos_id fine c w).1
     ∧ memory (put_api_todos_id full c w).2 = memory (put_api_todos_id fine c w).2
     ∧ file (put_api_todos_id full c w).2 = None)
  ∧ ((delete_api_todos_id full c w).1 = (delete_api_todos_id fine c w).1
     ∧ memory (delete_api_todos_id full c w).2 = memory (delete_api_todos_id fine c w).2
     ∧ file (delete_api_todos_id full c w).2 = None).
Proof.
  intros c full fine w. split; [by vm_compute|].
  exact (fb_write_error_is_swallowed Sample.host3 full fine c w eq_refl eq_refl).
Defined.

(** A create, an update, a delete and a list in production, with a file
    that holds two records. *)
Lemma fb_kv_requests_leave_file_witness :
  let c := Sample.production (Sample.request (Server.id Sample.milk) Sample.buy_milk) in
  let fs := {| write_throws := false; throws_at := OnOpen |} in
  let w := loaded_module {[ "tasks" := [Sample.milk] ]} (Some [Sample.milk; Sample.dog]) in
  succeeded (post_api_todos Sample.host3 fs c w).1 = true
  ∧ file (post_api_todos Sample.host3 fs c w).2 = file w
  ∧ file (put_api_todos_id fs c w).2 = file w
  ∧ file (delete_api_todos_id fs c w).2 = file w
  ∧ file (get_api_todos c w).2 = file w.
Proof.
  intros c fs w. split; [by vm_compute|].
  exact (fb_kv_requests_leave_file Sample.host3 fs c w eq_refl).
Defined.

End FileBacked_facts.

(** ** More about the first revision *)

(** The create handler of the first revision checks nothing: whatever the
    body holds under [task], nothing included, one record with that value
    and the clock as id is appended and answered with 200, and the list
    handler returns it last. *)
Theorem prototype_post_stores_anything now body v l :
  property body (js "task") = inr v →
  let newTask := {| Prototype.id := now; Prototype.task := v |} in
  Prototype.post_api_todos now (inr body) l = (Prototype.Json (inl newTask) 200, l ++ [newTask])
  ∧ Prototype.get_api_todos (l ++ [newTask])
    = (Prototype.Json (inr (l ++ [newTask])) 200, l ++ [newTask]).
Proof.
  intros Hv newTask. split; [|done].
  unfold Prototype.post_api_todos.
  cbv beta iota zeta delta
    [run_handler mbind mret Eff_bind Eff_ret bind ret lift throw return_ modify].
  rewrite Hv. done.
Qed.

(** A create with a number as body: [task] is [undefined]. *)
Lemma prototype_post_stores_anything_witness :
  let newTask := {| Prototype.id := 1714557600000; Prototype.task := undefined |} in
  Prototype.post_api_todos 1714557600000 (inr (JNum 5)) Prototype.tasks
  = (Prototype.Json (inl newTask) 200, Prototype.tasks ++ [newTask])
  ∧ Prototype.get_api_todos (Prototype.tasks ++ [newTask])
    = (Prototype.Json (inr (Prototype.tasks ++ [newTask])) 200, Prototype.tasks ++ [newTask]).
Proof.
  exact (prototype_post_stores_anything 1714557600000 (JNum 5) undefined Prototype.tasks
           eq_refl).
Defined.
